(** * UnderDogInvites: invite-code ledger, redemption and issuance

    A shallow embedding of [UnderDogs.py].  The Discord front end is kept
    only as far as it drives the ledger: the follow-up messages, the role
    lookups and the role grants are calls into an environment that may
    answer or raise; the two JSON files, the module globals and the random
    source are explicit state. *)

From Stdlib Require Import ZArith List String Ascii Bool Lia.
From Stdlib Require Import DecimalString.
From Stdlib Require DecimalZ DecimalPos.
Import ListNotations.

Local Open Scope Z_scope.
Local Open Scope list_scope.

(** ** Configuration / Constants *)

Definition FIRST_INVITE_ROLE_ID : Z := 1334406662315966474.
Definition SECOND_INVITE_ROLE_ID : Z := 1334406729823424684.
Definition INVITE_GENERATOR_ROLE_ID : Z := 1328552857267474495.
Definition NUM_GENERATED_CODES : nat := 3.
Definition CODE_PREFIX : string := "UD-"%string.

(** Python's [str] on an integer: its decimal numeral. *)
Definition str (z : Z) : string := NilZero.string_of_int (Z.to_int z).

(** ** Python dicts

    A [dict] keeps its keys in insertion order and the redemption scan
    depends on that order, so a dict is an association list.  Python keeps
    the keys distinct; [dict_wf] states it where a proof needs it. *)

Definition dict (V : Type) : Type := list (string * V).

Fixpoint dict_get {V : Type} (k : string) (d : dict V) : option V :=
  match d with
  | [] => None
  | (k', v) :: d' => if String.eqb k' k then Some v else dict_get k d'
  end.

(** [d.get(k, default)] *)
Definition dict_get_default {V : Type} (k : string) (default : V) (d : dict V) : V :=
  match dict_get k d with
  | Some v => v
  | None => default
  end.

(** [k in d] *)
Definition dict_mem {V : Type} (k : string) (d : dict V) : bool :=
  match dict_get k d with
  | Some _ => true
  | None => false
  end.

(** [d[k] = v]: overwrite in place, or append a new key at the end. *)
Fixpoint dict_set {V : Type} (k : string) (v : V) (d : dict V) : dict V :=
  match d with
  | [] => [(k, v)]
  | (k', v') :: d' =>
      if String.eqb k' k then (k', v) :: d' else (k', v') :: dict_set k v d'
  end.

Definition keys {V : Type} (d : dict V) : list string := map fst d.

Definition dict_wf {V : Type} (d : dict V) : Prop := NoDup (keys d).

(** ** Data model

    UnderDogInvites.json:
    [{ "user_id": { "invites": [ { "code": str, "used_by": str/None }, ... ] } }]
    UnderDogStats.json: [{ "user_id": number_of_invites_used }] *)

Record code_entry : Type := mk_entry {
  code : string;
  used_by : option string
}.

(** The value stored under an owner: the list under its ["invites"] key. *)
Definition invite_info : Type := list code_entry.

Definition invites : Type := dict invite_info.
Definition stats : Type := dict Z.

(** A file on disk: missing, holding a JSON document, or holding something
    [json.load] rejects (what a write that failed half-way leaves). *)
Inductive file (A : Type) : Type :=
| Absent
| Stored (d : A)
| Garbled.
Arguments Absent {A}.
Arguments Stored {A} d.
Arguments Garbled {A}.

Inductive filename : Type := INVITES_FILE | STATS_FILE.

(** What the bot says back to the user. *)
Inductive message : Type :=
| MsgNotExist                                  (* "This invite code does not exist!" *)
| MsgAlreadyUsed                               (* "This invite code is already used!" *)
| MsgOwnCode                                   (* "You cannot use your **own** invite code." *)
| MsgSuccess (entered_code : string) (used_count : Z)
| MsgError                                     (* "An error occurred: ..." *)
| MsgDashboard.                                (* "Here is your Underdog Dashboard:" *)

(** Observable steps, logged in the order the code performs them. *)
Inductive event : Type :=
| EvDefer
| EvAcquire                                    (* file_lock acquired *)
| EvRelease                                    (* file_lock released *)
| EvEnter (ticket : Z)                         (* queue_position += 1 *)
| EvSleep (seconds : Z)
| EvLoad (f : filename)
| EvMark (owner entered_code uid : string)     (* code_entry["used_by"] = uid *)
| EvCount (uid : string) (used_count : Z)      (* current_stats[uid] = used_count *)
| EvGrant (role : Z)                           (* member.add_roles(role) *)
| EvSave (f : filename)
| EvLeave                                      (* queue_position -= 1 *)
| EvSend (m : message).

(** ** Program state *)

Record world : Type := mk_world {
  invites_file : file invites;       (* INVITES_FILE on disk *)
  stats_file : file stats;           (* STATS_FILE on disk *)
  invites_data : invites;            (* module global *)
  queue_position : Z;                (* module global *)
  rand_pos : nat;                    (* how many random draws were consumed *)
  trace : list event
}.

(** How a write can go wrong: [open(filename, "w")] raises and the file is
    untouched, or the file is truncated and the dump does not complete. *)
Inductive io_fault : Type := io_ok | io_open_fails | io_write_fails.

(** The outside world: everything the code calls and does not control. *)
Record env : Type := mk_env {
  defer_raises : bool;                       (* interaction.response.defer *)
  load_raises : filename -> bool;            (* OSError while reading *)
  save_fault : filename -> io_fault;
  get_member : Z -> option (list Z);         (* guild.get_member: the member's role ids *)
  get_role : Z -> bool;                      (* guild.get_role(id) is not None *)
  add_roles_raises : Z -> bool;              (* member.add_roles raises *)
  send_raises : message -> bool;             (* followup.send / send_message raises *)
  rand_src : nat -> Z                        (* the n-th value drawn from [random] *)
}.

(** ** A monad for state, exceptions and early [return] *)

Inductive result (A : Type) : Type :=
| Normal (a : A)      (* fell through to the next statement *)
| Returned            (* a [return] statement was executed *)
| Raised.             (* an exception is propagating *)
Arguments Normal {A} a.
Arguments Returned {A}.
Arguments Raised {A}.

Definition M (A : Type) : Type := world -> result A * world.

Definition ret {A : Type} (a : A) : M A := fun w => (Normal a, w).

Definition bind {A B : Type} (m : M A) (k : A -> M B) : M B :=
  fun w =>
    match m w with
    | (Normal a, w') => k a w'
    | (Returned, w') => (Returned, w')
    | (Raised, w') => (Raised, w')
    end.

Definition raise {A : Type} : M A := fun w => (Raised, w).
Definition return_ {A : Type} : M A := fun w => (Returned, w).

Declare Scope monad_scope.
Delimit Scope monad_scope with monad.
Notation "x <- m ;; k" := (bind m (fun x => k))
  (at level 61, m at next level, right associativity) : monad_scope.
Notation "m ;; k" := (bind m (fun _ => k))
  (at level 61, right associativity) : monad_scope.
Local Open Scope monad_scope.

(** [try: body except Exception: handler] *)
Definition try_except {A : Type} (body handler : M A) : M A :=
  fun w =>
    match body w with
    | (Raised, w') => handler w'
    | r => r
    end.

(** The end of a [def]: an executed [return] ends the call normally. *)
Definition def_ (body : M unit) : M unit :=
  fun w =>
    match body w with
    | (Returned, w') => (Normal tt, w')
    | r => r
    end.

Definition log (e : event) : M unit :=
  fun w =>
    let 'mk_world fi fs idata q rp tr := w in
    (Normal tt, mk_world fi fs idata q rp (tr ++ [e])).

(** [async with file_lock: body]: the lock is released however the body
    is left. *)
Definition with_lock {A : Type} (body : M A) : M A :=
  fun w =>
    match log EvAcquire w with
    | (_, w1) =>
        match body w1 with
        | (r, w2) => (r, snd (log EvRelease w2))
        end
    end.

Definition get_queue_position : M Z := fun w => (Normal (queue_position w), w).

Definition set_queue_position (q' : Z) : M unit :=
  fun w =>
    let 'mk_world fi fs idata q rp tr := w in
    (Normal tt, mk_world fi fs idata q' rp tr).

Definition set_invites_data (d : invites) : M unit :=
  fun w =>
    let 'mk_world fi fs idata q rp tr := w in
    (Normal tt, mk_world fi fs d q rp tr).

Definition set_invites_file (f : file invites) (w : world) : world :=
  let 'mk_world fi fs idata q rp tr := w in mk_world f fs idata q rp tr.

Definition set_stats_file (f : file stats) (w : world) : world :=
  let 'mk_world fi fs idata q rp tr := w in mk_world fi f idata q rp tr.

(** A JSON file together with the place it occupies in the state. *)
Record handle (V : Type) : Type := mk_handle {
  h_name : filename;
  h_get : world -> file (dict V);
  h_set : file (dict V) -> world -> world
}.
Arguments h_name {V} h.
Arguments h_get {V} h.
Arguments h_set {V} h.

Definition INVITES : handle invite_info := mk_handle _ INVITES_FILE invites_file set_invites_file.
Definition STATS : handle Z := mk_handle _ STATS_FILE stats_file set_stats_file.

(** ** Helper functions *)

(** [load_json]: an empty dict when the file does not exist. *)
Definition load_json {V : Type} (e : env) (h : handle V) : M (dict V) :=
  log (EvLoad (h_name h)) ;;
  fun w =>
    match h_get h w with
    | Absent => (Normal [], w)
    | Stored d => if load_raises e (h_name h) then (Raised, w) else (Normal d, w)
    | Garbled => (Raised, w)
    end.

(** [save_json]: open for writing (which truncates), then dump. *)
Definition save_json {V : Type} (e : env) (h : handle V) (data : dict V) : M unit :=
  log (EvSave (h_name h)) ;;
  fun w =>
    match save_fault e (h_name h) with
    | io_ok => (Normal tt, h_set h (Stored data) w)
    | io_open_fails => (Raised, w)
    | io_write_fails => (Raised, h_set h Garbled w)
    end.

(** [random.randint(lo, hi)] *)
Definition randint (e : env) (lo hi : Z) : M Z :=
  fun w =>
    let 'mk_world fi fs idata q rp tr := w in
    (Normal (lo + rand_src e rp mod (hi - lo + 1)),
     mk_world fi fs idata q (S rp) tr).

(** [''.join(str(random.randint(0, 9)) for _ in range(n))] *)
Fixpoint random_digits (e : env) (n : nat) : M string :=
  match n with
  | O => ret EmptyString
  | S n' =>
      d <- randint e 0 9 ;;
      rest <- random_digits e n' ;;
      ret (String.append (str d) rest)
  end.

Definition generate_invite_code (e : env) : M string :=
  digits <- random_digits e 6 ;;
  ret (String.append CODE_PREFIX digits).

(** [followup.send] / [response.send_message] *)
Definition send (e : env) (m : message) : M unit :=
  log (EvSend m) ;;
  if send_raises e m then raise else ret tt.

(** ** Redemption: [EnterInviteModal.on_submit] *)

(** The three flags of the lookup loop. *)
Record scan_state : Type := mk_scan {
  found_code : bool;
  code_used : bool;
  owner_id : option string
}.

Definition scan_init : scan_state := mk_scan false false None.

(** The inner loop over one owner's entries: stop at the first entry that
    carries the entered code. *)
Fixpoint scan_entries (uid entered_code : string) (l : invite_info)
    (s : scan_state) : scan_state :=
  match l with
  | [] => s
  | code_entry :: l' =>
      if String.eqb (code code_entry) entered_code then
        match used_by code_entry with
        | Some _ => mk_scan true true (owner_id s)
        | None => mk_scan true (code_used s) (Some uid)
        end
      else scan_entries uid entered_code l' s
  end.

(** The outer loop over [current_invites.items()]. *)
Fixpoint scan_invites (entered_code : string) (d : invites)
    (s : scan_state) : scan_state :=
  match d with
  | [] => s
  | (uid, info) :: d' =>
      let s' := scan_entries uid entered_code info s in
      if found_code s' then s' else scan_invites entered_code d' s'
  end.

(** [str(user.id) == owner_id] *)
Definition is_owner (uid : string) (owner : option string) : bool :=
  match owner with
  | Some o => String.eqb uid o
  | None => false
  end.

Definition has_code (entered_code : string) (l : invite_info) : bool :=
  existsb (fun code_entry => String.eqb (code code_entry) entered_code) l.

(** The marking loop: the first entry of the owner's list that carries the
    code gets [used_by] set. *)
Fixpoint mark_used (entered_code uid : string) (l : invite_info) : invite_info :=
  match l with
  | [] => []
  | code_entry :: l' =>
      if String.eqb (code code_entry) entered_code
      then mk_entry (code code_entry) (Some uid) :: l'
      else code_entry :: mark_used entered_code uid l'
  end.

(** [for code_entry in current_invites[owner_id]["invites"]: ...] on the
    loaded dict, whose entries are mutated in place. *)
Definition mark_code (owner : option string) (entered_code uid : string)
    (current_invites : invites) : M invites :=
  match owner with
  | None => raise
  | Some o =>
      match dict_get o current_invites with
      | None => raise
      | Some info =>
          (if has_code entered_code info
           then log (EvMark o entered_code uid) else ret tt) ;;
          ret (dict_set o (mark_used entered_code uid info) current_invites)
      end
  end.

Definition defer (e : env) : M unit :=
  log EvDefer ;;
  if defer_raises e then raise else ret tt.

(** [queue_position += 1; my_place_in_line = queue_position] under the lock. *)
Definition enter_queue : M Z :=
  with_lock (
    q <- get_queue_position ;;
    set_queue_position (q + 1) ;;
    log (EvEnter (q + 1)) ;;
    ret (q + 1)).

(** [queue_position -= 1] *)
Definition leave_queue : M unit :=
  q <- get_queue_position ;;
  set_queue_position (q - 1) ;;
  log EvLeave.

Definition sleep (seconds : Z) : M unit := log (EvSleep seconds).

(** [role = guild.get_role(id); if role: await member.add_roles(role)] *)
Definition assign_role (e : env) (user_id role_id : Z) : M unit :=
  if get_role e role_id then
    match get_member e user_id with
    | None => raise
    | Some _ =>
        log (EvGrant role_id) ;;
        if add_roles_raises e role_id then raise else ret tt
    end
  else ret tt.

(** The second [async with file_lock] block. *)
Definition redeem_section (e : env) (user_id : Z) (entered_code : string) : M Z :=
  with_lock (
    current_invites <- load_json e INVITES ;;
    current_stats <- load_json e STATS ;;
    let s := scan_invites entered_code current_invites scan_init in
    if negb (found_code s) then
      leave_queue ;; send e MsgNotExist ;; return_
    else if code_used s then
      leave_queue ;; send e MsgAlreadyUsed ;; return_
    else if is_owner (str user_id) (owner_id s) then
      leave_queue ;; send e MsgOwnCode ;; return_
    else
      current_invites <- mark_code (owner_id s) entered_code (str user_id) current_invites ;;
      let used_count := dict_get_default (str user_id) 0 current_stats + 1 in
      log (EvCount (str user_id) used_count) ;;
      let current_stats := dict_set (str user_id) used_count current_stats in
      (if used_count =? 1 then assign_role e user_id FIRST_INVITE_ROLE_ID
       else if used_count =? 2 then assign_role e user_id SECOND_INVITE_ROLE_ID
       else ret tt) ;;
      save_json e INVITES current_invites ;;
      save_json e STATS current_stats ;;
      leave_queue ;;
      ret used_count).

(** The body of the [try]. *)
Definition on_submit_try (e : env) (user_id : Z) (entered_code : string) : M unit :=
  my_place_in_line <- enter_queue ;;
  sleep my_place_in_line ;;
  used_count <- redeem_section e user_id entered_code ;;
  send e (MsgSuccess entered_code used_count).

(** The [except Exception] handler. *)
Definition on_submit_except (e : env) : M unit :=
  with_lock (
    q <- get_queue_position ;;
    if 0 <? q then leave_queue else ret tt) ;;
  send e MsgError.

(** [entered_code] is the text input after [strip()]. *)
Definition on_submit (e : env) (user_id : Z) (entered_code : string) : M unit :=
  def_ (
    defer e ;;
    try_except (on_submit_try e user_id entered_code) (on_submit_except e)).

(** ** Issuance: [DashboardView.open_dashboard_button] *)

Definition has_generator_role (roles : list Z) : bool :=
  existsb (fun r => r =? INVITE_GENERATOR_ROLE_ID) roles.

(** The [for _ in range(NUM_GENERATED_CODES)] loop, appending to the new
    owner's list. *)
Fixpoint generate_codes (e : env) (n : nat) (acc : invite_info) : M invite_info :=
  match n with
  | O => ret acc
  | S n' =>
      c <- generate_invite_code e ;;
      generate_codes e n' (acc ++ [mk_entry c None])
  end.

(** [DashboardControlView.__init__] rereads the invites to label its button. *)
Definition dashboard_control_view (e : env) (roles : list Z) : M unit :=
  if has_generator_role roles then
    _ <- load_json e INVITES ;; ret tt
  else ret tt.

Definition open_dashboard_button (e : env) (user_id : Z) : M unit :=
  def_ (
    match get_member e user_id with
    | None => raise
    | Some roles =>
        (if has_generator_role roles then
           d <- load_json e INVITES ;;
           set_invites_data d ;;
           if negb (dict_mem (str user_id) d) then
             new_codes <- generate_codes e NUM_GENERATED_CODES [] ;;
             let d' := dict_set (str user_id) new_codes d in
             set_invites_data d' ;;
             save_json e INVITES d'
           else ret tt
         else ret tt) ;;
        dashboard_control_view e roles ;;
        send e MsgDashboard
    end).

(** ** Reading a run

    Vocabulary for the statements below; nothing here is executed by the
    program. *)

(** What [load_json] hands back for a readable file. *)
Definition view {V : Type} (f : file (dict V)) : dict V :=
  match f with
  | Stored d => d
  | _ => []
  end.

(** A file that [load_json] reads without raising. *)
Definition readable {V : Type} (e : env) (h : handle V) (w : world) : bool :=
  match h_get h w with
  | Absent => true
  | Stored _ => negb (load_raises e (h_name h))
  | Garbled => false
  end.

(** All code entries with their owner, in the order the scan visits them. *)
Definition entries (d : invites) : list (string * code_entry) :=
  flat_map (fun p => map (pair (fst p)) (snd p)) d.

Definition all_codes (d : invites) : list string :=
  map (fun oe => code (snd oe)) (entries d).

(** The first entry, in scan order, that carries code [c]. *)
Definition lookup_code (c : string) (d : invites) : option (string * code_entry) :=
  find (fun oe => String.eqb (code (snd oe)) c) (entries d).

(** The events an attempt added to the log. *)
Definition new_events (w w' : world) : list event :=
  skipn (List.length (trace w)) (trace w').

Definition replies (evs : list event) : list message :=
  flat_map (fun ev => match ev with EvSend m => [m] | _ => [] end) evs.

Definition grants (evs : list event) : list Z :=
  flat_map (fun ev => match ev with EvGrant r => [r] | _ => [] end) evs.

(** Whether [file_lock] is held after the events [evs], starting free. *)
Definition lock_held (evs : list event) : bool :=
  fold_left (fun held ev =>
               match ev with
               | EvAcquire => true
               | EvRelease => false
               | _ => held
               end) evs false.

Definition files_unchanged (w w' : world) : Prop :=
  invites_file w' = invites_file w /\ stats_file w' = stats_file w.

(** ** The validation and the commit, in the spec's words

    [decide] is the validation the specification describes: unknown code,
    then used code, then own code.  [try_outcome] below relates the code
    to it. *)

Inductive decision : Type :=
| Reject (m : message)
| Proceed (owner : string).

Definition decide (c uid : string) (inv : invites) : decision :=
  match lookup_code c inv with
  | None => Reject MsgNotExist
  | Some (o, en) =>
      match used_by en with
      | Some _ => Reject MsgAlreadyUsed
      | None => if String.eqb uid o then Reject MsgOwnCode else Proceed o
      end
  end.

Definition new_count (uid : string) (st : stats) : Z :=
  dict_get_default uid 0 st + 1.

Definition new_stats (uid : string) (st : stats) : stats :=
  dict_set uid (new_count uid st) st.

Definition new_invites (c uid o : string) (info : invite_info) (inv : invites) : invites :=
  dict_set o (mark_used c uid info) inv.

(** The role a count unlocks. *)
Definition threshold_role (n : Z) : option Z :=
  if n =? 1 then Some FIRST_INVITE_ROLE_ID
  else if n =? 2 then Some SECOND_INVITE_ROLE_ID
  else None.

(** [w] after some more events, with the given files and counter. *)
Definition step_world (w : world) (fi : file invites) (fs : file stats)
    (q : Z) (evs : list event) : world :=
  let 'mk_world _ _ idata _ rp tr := w in
  mk_world fi fs idata q rp (tr ++ evs).

(** Ticket, sleep and the start of the critical section. *)
Definition prologue (q : Z) : list event :=
  [EvAcquire; EvEnter (q + 1); EvRelease; EvSleep (q + 1); EvAcquire].

(** The events of a critical section that got as far as the new count. *)
Definition commit_head (q : Z) (c uid o : string) (info : invite_info) (n : Z) : list event :=
  prologue q ++ [EvLoad INVITES_FILE; EvLoad STATS_FILE]
    ++ (if has_code c info then [EvMark o c uid] else [])
    ++ [EvCount uid n].

(** The role step went through, logging [G]. *)
Inductive grant_ok (e : env) (user_id n : Z) : list event -> Prop :=
| G_no_threshold :
    threshold_role n = None -> grant_ok e user_id n []
| G_no_role r :
    threshold_role n = Some r -> get_role e r = false -> grant_ok e user_id n []
| G_granted r roles :
    threshold_role n = Some r -> get_role e r = true ->
    get_member e user_id = Some roles -> add_roles_raises e r = false ->
    grant_ok e user_id n [EvGrant r].

Section TryOutcome.
Variables (e : env) (user_id : Z) (c : string) (w : world).

Let uid := str user_id.
Let q := queue_position w.
Let fi := invites_file w.
Let fs := stats_file w.
Let inv := view (invites_file w).
Let st := view (stats_file w).
Let n := new_count (str user_id) (view (stats_file w)).

(** Every way the [try] block can end, with the state it leaves. *)
Inductive try_outcome : result unit -> world -> Prop :=
| T_load_invites :
    readable e INVITES w = false ->
    try_outcome Raised
      (step_world w fi fs (q + 1) (prologue q ++ [EvLoad INVITES_FILE; EvRelease]))
| T_load_stats :
    readable e INVITES w = true -> readable e STATS w = false ->
    try_outcome Raised
      (step_world w fi fs (q + 1)
         (prologue q ++ [EvLoad INVITES_FILE; EvLoad STATS_FILE; EvRelease]))
| T_reject m :
    readable e INVITES w = true -> readable e STATS w = true ->
    decide c uid inv = Reject m -> send_raises e m = false ->
    try_outcome Returned
      (step_world w fi fs q
         (prologue q ++ [EvLoad INVITES_FILE; EvLoad STATS_FILE;
                         EvLeave; EvSend m; EvRelease]))
| T_reject_unsent m :
    readable e INVITES w = true -> readable e STATS w = true ->
    decide c uid inv = Reject m -> send_raises e m = true ->
    try_outcome Raised
      (step_world w fi fs q
         (prologue q ++ [EvLoad INVITES_FILE; EvLoad STATS_FILE;
                         EvLeave; EvSend m; EvRelease]))
| T_no_member o info r :
    readable e INVITES w = true -> readable e STATS w = true ->
    decide c uid inv = Proceed o -> dict_get o inv = Some info ->
    threshold_role n = Some r -> get_role e r = true ->
    get_member e user_id = None ->
    try_outcome Raised
      (step_world w fi fs (q + 1) (commit_head q c uid o info n ++ [EvRelease]))
| T_grant_raises o info r roles :
    readable e INVITES w = true -> readable e STATS w = true ->
    decide c uid inv = Proceed o -> dict_get o inv = Some info ->
    threshold_role n = Some r -> get_role e r = true ->
    get_member e user_id = Some roles -> add_roles_raises e r = true ->
    try_outcome Raised
      (step_world w fi fs (q + 1)
         (commit_head q c uid o info n ++ [EvGrant r; EvRelease]))
| T_save_invites_open o info G :
    readable e INVITES w = true -> readable e STATS w = true ->
    decide c uid inv = Proceed o -> dict_get o inv = Some info ->
    grant_ok e user_id n G ->
    save_fault e INVITES_FILE = io_open_fails ->
    try_outcome Raised
      (step_world w fi fs (q + 1)
         (commit_head q c uid o info n ++ G ++ [EvSave INVITES_FILE; EvRelease]))
| T_save_invites_write o info G :
    readable e INVITES w = true -> readable e STATS w = true ->
    decide c uid inv = Proceed o -> dict_get o inv = Some info ->
    grant_ok e user_id n G ->
    save_fault e INVITES_FILE = io_write_fails ->
    try_outcome Raised
      (step_world w Garbled fs (q + 1)
         (commit_head q c uid o info n ++ G ++ [EvSave INVITES_FILE; EvRelease]))
| T_save_stats_open o info G :
    readable e INVITES w = true -> readable e STATS w = true ->
    decide c uid inv = Proceed o -> dict_get o inv = Some info ->
    grant_ok e user_id n G ->
    save_fault e INVITES_FILE = io_ok ->
    save_fault e STATS_FILE = io_open_fails ->
    try_outcome Raised
      (step_world w (Stored (new_invites c uid o info inv)) fs (q + 1)
         (commit_head q c uid o info n ++ G
            ++ [EvSave INVITES_FILE; EvSave STATS_FILE; EvRelease]))
| T_save_stats_write o info G :
    readable e INVITES w = true -> readable e STATS w = true ->
    decide c uid inv = Proceed o -> dict_get o inv = Some info ->
    grant_ok e user_id n G ->
    save_fault e INVITES_FILE = io_ok ->
    save_fault e STATS_FILE = io_write_fails ->
    try_outcome Raised
      (step_world w (Stored (new_invites c uid o info inv)) Garbled (q + 1)
         (commit_head q c uid o info n ++ G
            ++ [EvSave INVITES_FILE; EvSave STATS_FILE; EvRelease]))
| T_commit o info G :
    readable e INVITES w = true -> readable e STATS w = true ->
    decide c uid inv = Proceed o -> dict_get o inv = Some info ->
    grant_ok e user_id n G ->
    save_fault e INVITES_FILE = io_ok ->
    save_fault e STATS_FILE = io_ok ->
    send_raises e (MsgSuccess c n) = false ->
    try_outcome (Normal tt)
      (step_world w (Stored (new_invites c uid o info inv))
         (Stored (new_stats uid st)) q
         (commit_head q c uid o info n ++ G
            ++ [EvSave INVITES_FILE; EvSave STATS_FILE; EvLeave; EvRelease;
                EvSend (MsgSuccess c n)]))
| T_commit_unsent o info G :
    readable e INVITES w = true -> readable e STATS w = true ->
    decide c uid inv = Proceed o -> dict_get o inv = Some info ->
    grant_ok e user_id n G ->
    save_fault e INVITES_FILE = io_ok ->
    save_fault e STATS_FILE = io_ok ->
    send_raises e (MsgSuccess c n) = true ->
    try_outcome Raised
      (step_world w (Stored (new_invites c uid o info inv))
         (Stored (new_stats uid st)) q
         (commit_head q c uid o info n ++ G
            ++ [EvSave INVITES_FILE; EvSave STATS_FILE; EvLeave; EvRelease;
                EvSend (MsgSuccess c n)])).
End TryOutcome.

(** The events of the [except] handler when the counter stands at [q]. *)
Definition handler_events (q : Z) : list event :=
  EvAcquire :: (if 0 <? q then [EvLeave] else []) ++ [EvRelease; EvSend MsgError].

(** The state the [except] handler leaves. *)
Definition handled (w : world) : world :=
  step_world w (invites_file w) (stats_file w)
    (if 0 <? queue_position w then queue_position w - 1 else queue_position w)
    (handler_events (queue_position w)).

(** The state after [interaction.response.defer]. *)
Definition deferred (w : world) : world :=
  step_world w (invites_file w) (stats_file w) (queue_position w) [EvDefer].

(** Every way a whole call of [on_submit] can end. *)
Inductive on_submit_outcome (e : env) (user_id : Z) (c : string) (w : world) :
    world -> Prop :=
| O_defer :
    defer_raises e = true ->
    on_submit_outcome e user_id c w (deferred w)
| O_handled w1 :
    defer_raises e = false ->
    try_outcome e user_id c (deferred w) Raised w1 ->
    on_submit_outcome e user_id c w (handled w1)
| O_returned w1 :
    defer_raises e = false ->
    try_outcome e user_id c (deferred w) Returned w1 ->
    on_submit_outcome e user_id c w w1
| O_completed w1 :
    defer_raises e = false ->
    try_outcome e user_id c (deferred w) (Normal tt) w1 ->
    on_submit_outcome e user_id c w w1.

(** ** Reading the result of an attempt *)

(** The three user-facing rejections. *)
Definition is_rejection (m : message) : bool :=
  match m with
  | MsgNotExist | MsgAlreadyUsed | MsgOwnCode => true
  | _ => false
  end.

(** The attempt ended by telling the user that code [c] was redeemed and
    that their count is now [n]: the [try] block ran to its end. *)
Definition redeemed (c : string) (n : Z) (w w' : world) : Prop :=
  last (new_events w w') EvDefer = EvSend (MsgSuccess c n).

(** Both files hold the snapshot of a committed redemption of [c] by
    [user_id], built from what [w] had on disk. *)
Definition committed (user_id : Z) (c : string) (w w' : world) : Prop :=
  exists o info,
    decide c (str user_id) (view (invites_file w)) = Proceed o /\
    dict_get o (view (invites_file w)) = Some info /\
    invites_file w' =
      Stored (new_invites c (str user_id) o info (view (invites_file w))) /\
    stats_file w' = Stored (new_stats (str user_id) (view (stats_file w))).

Definition all_or_nothing (user_id : Z) (c : string) (w w' : world) : Prop :=
  files_unchanged w w' \/ committed user_id c w w'.

(** No write fails once writing has begun. *)
Definition atomic_saves (e : env) : Prop :=
  save_fault e INVITES_FILE = io_open_fails \/
  (save_fault e INVITES_FILE = io_ok /\ save_fault e STATS_FILE = io_ok).

(** ** Concrete runs used as examples *)

(** An environment in which nothing fails; every member holds the
    generator role and every role exists. *)
Definition calm : env :=
  mk_env false (fun _ => false) (fun _ => io_ok)
         (fun _ => Some [INVITE_GENERATOR_ROLE_ID])
         (fun _ => true) (fun _ => false) (fun _ => false)
         (fun k => Z.of_nat k).

(** As [calm], but the stats file cannot be opened for writing. *)
Definition stats_locked : env :=
  mk_env false (fun _ => false)
         (fun f => match f with INVITES_FILE => io_ok | STATS_FILE => io_open_fails end)
         (fun _ => Some [INVITE_GENERATOR_ROLE_ID])
         (fun _ => true) (fun _ => false) (fun _ => false)
         (fun k => Z.of_nat k).

(** As [calm], but every follow-up message fails to send. *)
Definition mute : env :=
  mk_env false (fun _ => false) (fun _ => io_ok)
         (fun _ => Some [INVITE_GENERATOR_ROLE_ID])
         (fun _ => true) (fun _ => false) (fun _ => true)
         (fun k => Z.of_nat k).

(** As [calm], but the guild has none of the invite roles. *)
Definition roleless : env :=
  mk_env false (fun _ => false) (fun _ => io_ok)
         (fun _ => Some [INVITE_GENERATOR_ROLE_ID])
         (fun _ => false) (fun _ => false) (fun _ => false)
         (fun k => Z.of_nat k).

(** As [calm], but the random source always draws the same value. *)
Definition stuck_dice : env :=
  mk_env false (fun _ => false) (fun _ => io_ok)
         (fun _ => Some [INVITE_GENERATOR_ROLE_ID])
         (fun _ => true) (fun _ => false) (fun _ => false)
         (fun _ => 7).

Definition fresh_world : world := mk_world Absent Absent [] 0 0 [].

(** User 42 owns three unused codes; nobody has redeemed anything. *)
Definition ledger_A : invites :=
  [("42"%string,
    [mk_entry "UD-012345" None; mk_entry "UD-678901" None;
     mk_entry "UD-234567" None])].

Definition world_A : world := mk_world (Stored ledger_A) Absent [] 0 0 [].

(** As [world_A], with one other attempt holding a ticket. *)
Definition world_A_busy : world := mk_world (Stored ledger_A) Absent [] 1 0 [].

(** The role grant a redemption bringing the count to [n] performs. *)
Definition granted (e : env) (n : Z) : list event :=
  match threshold_role n with
  | Some r => if get_role e r then [EvGrant r] else []
  | None => []
  end.

(** The order the specification asks for: a role is granted only once the
    lock is free again and both files are written. *)
Definition grants_after_commit (evs : list event) : Prop :=
  forall pre r post,
    evs = pre ++ EvGrant r :: post ->
    lock_held pre = false /\
    In (EvSave INVITES_FILE) pre /\ In (EvSave STATS_FILE) pre.

(** The events of a redemption up to the role step. *)
Definition commit_steps (q : Z) (o c uid : string) (n : Z) : list event :=
  [EvDefer; EvAcquire; EvEnter (q + 1); EvRelease; EvSleep (q + 1); EvAcquire;
   EvLoad INVITES_FILE; EvLoad STATS_FILE; EvMark o c uid; EvCount uid n].

(** Nothing stands in the way of a commit that brings the count to [n]. *)
Definition unhindered (e : env) (user_id : Z) (c : string) (n : Z) : Prop :=
  (exists G, grant_ok e user_id n G) /\
  save_fault e INVITES_FILE = io_ok /\
  save_fault e STATS_FILE = io_ok /\
  send_raises e (MsgSuccess c n) = false.

(** ** Ledgers over time *)

(** An entry and its later self: same code, and a redeemer once recorded
    is still the one recorded. *)
Definition entry_le (a b : code_entry) : Prop :=
  code a = code b /\ forall r, used_by a = Some r -> used_by b = Some r.

(** A ledger and its later self: same owners in the same order, same
    entries in the same places, each at least as used. *)
Definition ledger_le (d d' : invites) : Prop :=
  Forall2 (fun p p' => fst p = fst p' /\ Forall2 entry_le (snd p) (snd p')) d d'.

Record attempt : Type := mk_attempt {
  a_env : env;
  a_user : Z;
  a_code : string
}.

(** Redemption attempts run one after the other. *)
Fixpoint run_attempts (l : list attempt) (w : world) : world :=
  match l with
  | [] => w
  | a :: l' => run_attempts l' (snd (on_submit (a_env a) (a_user a) (a_code a) w))
  end.

(** Role grants as the specification states them: the first-invite role
    exactly when the count reaches 1, the second-invite role exactly when
    it reaches 2, nothing from 3 on. *)
Definition grant_per_threshold (n : Z) (evs : list event) : Prop :=
  (In FIRST_INVITE_ROLE_ID (grants evs) <-> n = 1) /\
  (In SECOND_INVITE_ROLE_ID (grants evs) <-> n = 2) /\
  (3 <= n -> grants evs = []).

(** Every count on record is positive. *)
Definition all_positive (st : stats) : Prop :=
  forall k v, dict_get k st = Some v -> 0 < v.

(** The first redemption of a user without a count, as the specification
    states it: the count becomes 1 and the first-invite role is granted. *)
Definition first_redemption_grants (user_id : Z) (w w' : world) : Prop :=
  dict_get (str user_id) (view (stats_file w)) = None ->
  dict_get (str user_id) (view (stats_file w')) = Some 1 /\
  In FIRST_INVITE_ROLE_ID (grants (new_events w w')).

(** ** Reading the result of an issuance *)

(** The digit the [p]-th random draw turns into. *)
Definition digit_at (e : env) (p : nat) : string :=
  str (0 + rand_src e p mod (9 - 0 + 1)).

(** The numeral built from [n] draws, starting at draw [p]. *)
Fixpoint digits_from (e : env) (p n : nat) : string :=
  match n with
  | O => EmptyString
  | S n' => String.append (digit_at e p) (digits_from e (S p) n')
  end.

(** The code built from the six draws starting at draw [p]. *)
Definition code_at (e : env) (p : nat) : string :=
  String.append CODE_PREFIX (digits_from e p 6).

(** The codes of a batch whose first draw is draw [p]. *)
Definition batch_codes (e : env) (p : nat) : list string :=
  [code_at e p; code_at e (6 + p); code_at e (12 + p)].

Definition batch (e : env) (p : nat) : invite_info :=
  map (fun c => mk_entry c None) (batch_codes e p).

Definition is_digit (a : ascii) : bool :=
  (48 <=? nat_of_ascii a)%nat && (nat_of_ascii a <=? 57)%nat.

Fixpoint all_digits (s : string) : bool :=
  match s with
  | EmptyString => true
  | String a s' => is_digit a && all_digits s'
  end.

(** The fixed prefix followed by exactly six decimal digits. *)
Definition well_formed_code (s : string) : Prop :=
  exists d, s = String.append CODE_PREFIX d /\
            String.length d = 6%nat /\ all_digits d = true.

(** The member may generate codes. *)
Definition eligible (e : env) (user_id : Z) : Prop :=
  exists roles, get_member e user_id = Some roles /\ has_generator_role roles = true.

(** No two entries of the ledger carry the same code. *)
Definition codes_unique (d : invites) : Prop := NoDup (all_codes d).

(** ** The dashboard views: [DashboardControlView], [InvitesButton] *)

(** [sum(1 for inv in user_invites if inv["used_by"] is None)] *)
Fixpoint unused_count (user_invites : invite_info) : Z :=
  match user_invites with
  | [] => 0
  | inv :: rest =>
      match used_by inv with
      | None => 1 + unused_count rest
      | Some _ => unused_count rest
      end
  end.

(** The children of a [DashboardControlView]. *)
Inductive item : Type :=
| EnterInviteButton                 (* label "Enter Invite" *)
| InvitesButton (label : string).

(** [DashboardControlView.__init__]: the decorated button, and for a
    member with the generator role a button labelled with the number of
    their unused invites, read from disk. *)
Definition DashboardControlView (e : env) (member_id : Z) (roles : list Z) :
    M (list item) :=
  if has_generator_role roles then
    invites_data_local <- load_json e INVITES ;;
    let user_invites := dict_get_default (str member_id) [] invites_data_local in
    let unused := unused_count user_invites in
    ret [EnterInviteButton;
         InvitesButton
           (String.append "Invites(" (String.append (str unused) ")"))]
  else ret [EnterInviteButton].

(** One line of [InvitesButton.callback]. *)
Definition invite_line (inv : code_entry) : string :=
  match used_by inv with
  | None =>
      String.append "`" (String.append (code inv) "` used by none")
  | Some used_by =>
      String.append "`"
        (String.append (code inv)
           (String.append "` used by <@" (String.append used_by ">")))
  end.

(** The [lines] list of [InvitesButton.callback]. *)
Definition callback_lines (user_invites : invite_info) : list string :=
  match user_invites with
  | [] => ["You have no invites stored."%string]
  | _ => map invite_line user_invites
  end.

Definition newline : string := String (ascii_of_nat 10) EmptyString.

(** [msg = "\n".join(lines) if lines else "No invites to display."] *)
Definition callback_msg (lines : list string) : string :=
  match lines with
  | [] => "No invites to display."%string
  | _ => String.concat newline lines
  end.

(** [InvitesButton.callback] up to its last statement: the result is the
    [content] handed to [interaction.response.send_message]. *)
Definition callback (e : env) (user_id : Z) : M string :=
  invites_data_local <- load_json e INVITES ;;
  let user_invites := dict_get_default (str user_id) [] invites_data_local in
  ret (callback_msg (callback_lines user_invites)).

(** ** Operations in sequence *)

Inductive operation : Type :=
| Redeem (e : env) (user_id : Z) (entered_code : string)
| OpenDashboard (e : env) (user_id : Z).

Definition run_operation (op : operation) (w : world) : world :=
  match op with
  | Redeem e user_id entered_code => snd (on_submit e user_id entered_code w)
  | OpenDashboard e user_id => snd (open_dashboard_button e user_id w)
  end.

Fixpoint run_operations (ops : list operation) (w : world) : world :=
  match ops with
  | [] => w
  | op :: ops' => run_operations ops' (run_operation op w)
  end.

(** The environment an operation runs in. *)
Definition op_env (op : operation) : env :=
  match op with
  | Redeem e _ _ => e
  | OpenDashboard e _ => e
  end.

(** ** Vocabulary for the properties of whole runs *)

(** Every way a call of [open_dashboard_button] can end. *)
Inductive dashboard_outcome (e : env) (user_id : Z) (w : world) : world -> Prop :=
| D_no_member :
    get_member e user_id = None ->
    dashboard_outcome e user_id w w
| D_not_eligible roles :
    get_member e user_id = Some roles -> has_generator_role roles = false ->
    dashboard_outcome e user_id w
      (mk_world (invites_file w) (stats_file w) (invites_data w)
         (queue_position w) (rand_pos w) (trace w ++ [EvSend MsgDashboard]))
| D_unreadable roles :
    get_member e user_id = Some roles -> has_generator_role roles = true ->
    readable e INVITES w = false ->
    dashboard_outcome e user_id w
      (mk_world (invites_file w) (stats_file w) (invites_data w)
         (queue_position w) (rand_pos w) (trace w ++ [EvLoad INVITES_FILE]))
| D_known roles l :
    get_member e user_id = Some roles -> has_generator_role roles = true ->
    readable e INVITES w = true ->
    dict_get (str user_id) (view (invites_file w)) = Some l ->
    dashboard_outcome e user_id w
      (mk_world (invites_file w) (stats_file w) (view (invites_file w))
         (queue_position w) (rand_pos w)
         (trace w ++ [EvLoad INVITES_FILE; EvLoad INVITES_FILE; EvSend MsgDashboard]))
| D_generated roles :
    get_member e user_id = Some roles -> has_generator_role roles = true ->
    readable e INVITES w = true ->
    dict_get (str user_id) (view (invites_file w)) = None ->
    save_fault e INVITES_FILE = io_ok ->
    let d' := view (invites_file w) ++ [(str user_id, batch e (rand_pos w))] in
    dashboard_outcome e user_id w
      (mk_world (Stored d') (stats_file w) d' (queue_position w) (18 + rand_pos w)
         (trace w ++ [EvLoad INVITES_FILE; EvSave INVITES_FILE; EvLoad INVITES_FILE]
            ++ (if load_raises e INVITES_FILE then [] else [EvSend MsgDashboard])))
| D_save_open roles :
    get_member e user_id = Some roles -> has_generator_role roles = true ->
    readable e INVITES w = true ->
    dict_get (str user_id) (view (invites_file w)) = None ->
    save_fault e INVITES_FILE = io_open_fails ->
    let d' := view (invites_file w) ++ [(str user_id, batch e (rand_pos w))] in
    dashboard_outcome e user_id w
      (mk_world (invites_file w) (stats_file w) d' (queue_position w)
         (18 + rand_pos w) (trace w ++ [EvLoad INVITES_FILE; EvSave INVITES_FILE]))
| D_save_write roles :
    get_member e user_id = Some roles -> has_generator_role roles = true ->
    readable e INVITES w = true ->
    dict_get (str user_id) (view (invites_file w)) = None ->
    save_fault e INVITES_FILE = io_write_fails ->
    let d' := view (invites_file w) ++ [(str user_id, batch e (rand_pos w))] in
    dashboard_outcome e user_id w
      (mk_world Garbled (stats_file w) d' (queue_position w)
         (18 + rand_pos w) (trace w ++ [EvLoad INVITES_FILE; EvSave INVITES_FILE])).

(** An event that reads or writes what the attempts share: the two files
    and the queue counter. *)
Definition touches_shared (ev : event) : bool :=
  match ev with
  | EvLoad _ | EvSave _ | EvEnter _ | EvLeave => true
  | _ => false
  end.

(** The lock after one more event. *)
Definition lock_after (held : bool) (ev : event) : bool :=
  match ev with
  | EvAcquire => true
  | EvRelease => false
  | _ => held
  end.

(** The lock is taken only when free, released only when held, and held
    at every access to shared state. *)
Definition lock_disciplined (evs : list event) : Prop :=
  forall pre ev post,
    evs = pre ++ ev :: post ->
    (touches_shared ev = true -> lock_held pre = true) /\
    (ev = EvAcquire -> lock_held pre = false) /\
    (ev = EvRelease -> lock_held pre = true).

(** The same, as a check that runs along the events. *)
Fixpoint locked_access (held : bool) (evs : list event) : bool :=
  match evs with
  | [] => true
  | ev :: rest =>
      match ev with
      | EvAcquire => negb held
      | EvRelease => held
      | _ => if touches_shared ev then held else true
      end && locked_access (lock_after held ev) rest
  end.

(** What every ledger the program builds looks like: each owner has
    exactly [NUM_GENERATED_CODES] entries, each code is well formed, and
    nobody is recorded as the redeemer of a code of their own. *)
Definition ledger_sound (inv : invites) : Prop :=
  forall o l, In (o, l) inv ->
    List.length l = NUM_GENERATED_CODES /\
    forall en, In en l ->
      well_formed_code (code en) /\ used_by en <> Some o.

(** Whether an entry records [u] as its redeemer. *)
Definition used_by_user (u : string) (en : code_entry) : bool :=
  match used_by en with
  | Some r => String.eqb r u
  | None => false
  end.

(** How many entries of a list record [u] as their redeemer. *)
Definition redeemed_in (u : string) (l : invite_info) : Z :=
  Z.of_nat (List.length (filter (used_by_user u) l)).

(** How many entries of the ledger record [u] as their redeemer. *)
Fixpoint redemptions_by (u : string) (inv : invites) : Z :=
  match inv with
  | [] => 0
  | (_, l) :: inv' => redeemed_in u l + redemptions_by u inv'
  end.

(** The stats table counts what the ledger records. *)
Definition counts_agree (inv : invites) (st : stats) : Prop :=
  forall u, dict_get_default u 0 st = redemptions_by u inv.

(** No operation of the list suffers a write that fails after writing
    has begun. *)
Definition all_atomic (ops : list operation) : Prop :=
  Forall (fun op => atomic_saves (op_env op)) ops.

(** The state with the module global [invites_data] replaced. *)
Definition with_cache (d : invites) (w : world) : world :=
  let 'mk_world fi fs _ q rp tr := w in mk_world fi fs d q rp tr.

(** Everything in the state but the module global [invites_data]. *)
Definition outside_cache (w : world) :
    file invites * file stats * Z * nat * list event :=
  (invites_file w, stats_file w, queue_position w, rand_pos w, trace w).

(** The messages of [sent] that reach the user: [followup.send] raising
    means the message was not delivered. *)
Definition delivered (e : env) (sent : list message) : list message :=
  filter (fun m => negb (send_raises e m)) sent.
(** ** Facts about dicts and the scan *)

Lemma dict_get_set_same {V : Type} (k : string) (v : V) (d : dict V) :
  dict_get k (dict_set k v d) = Some v.
Proof.
  induction d as [|[k' v'] d IH]; simpl.
  - now rewrite String.eqb_refl.
  - destruct (String.eqb k' k) eqn:E; simpl; rewrite E; auto.
Qed.

Lemma dict_get_set_other {V : Type} (k k' : string) (v : V) (d : dict V) :
  k' <> k -> dict_get k' (dict_set k v d) = dict_get k' d.
Proof.
  intros Hne. induction d as [|[k0 v0] d IH]; simpl.
  - destruct (String.eqb_spec k k'); congruence.
  - destruct (String.eqb_spec k0 k) as [->|Hk]; simpl.
    + destruct (String.eqb_spec k k'); congruence.
    + destruct (String.eqb_spec k0 k'); auto.
Qed.

Lemma keys_dict_set_present {V : Type} (k : string) (v v0 : V) (d : dict V) :
  dict_get k d = Some v0 -> keys (dict_set k v d) = keys d.
Proof.
  induction d as [|[k' v'] d IH]; simpl; [discriminate|].
  destruct (String.eqb_spec k' k) as [->|Hk]; simpl; intros H; auto.
  f_equal. auto.
Qed.

Lemma keys_dict_set_absent {V : Type} (k : string) (v : V) (d : dict V) :
  dict_get k d = None -> dict_set k v d = d ++ [(k, v)].
Proof.
  induction d as [|[k' v'] d IH]; simpl; auto.
  destruct (String.eqb_spec k' k) as [->|Hk]; [discriminate|].
  intros H. now rewrite IH.
Qed.

Lemma dict_get_None_keys {V : Type} (k : string) (d : dict V) :
  dict_get k d = None <-> ~ In k (keys d).
Proof.
  induction d as [|[k' v'] d IH]; simpl.
  - tauto.
  - destruct (String.eqb_spec k' k) as [->|Hk].
    + split; [discriminate|]. intros H. exfalso. apply H. now left.
    + rewrite IH. tauto.
Qed.

Lemma scan_entries_find (uid c : string) (l : invite_info) (s : scan_state) :
  scan_entries uid c l s =
  match find (fun en => String.eqb (code en) c) l with
  | None => s
  | Some en =>
      match used_by en with
      | Some _ => mk_scan true true (owner_id s)
      | None => mk_scan true (code_used s) (Some uid)
      end
  end.
Proof.
  induction l as [|en l IH]; simpl; auto.
  destruct (String.eqb (code en) c); auto.
Qed.

Lemma find_map_pair (o c : string) (l : invite_info) :
  find (fun oe : string * code_entry => String.eqb (code (snd oe)) c) (map (pair o) l) =
  option_map (pair o) (find (fun en => String.eqb (code en) c) l).
Proof.
  induction l as [|en l IH]; simpl; auto.
  destruct (String.eqb (code en) c); auto.
Qed.

Lemma find_app {A : Type} (f : A -> bool) (l1 l2 : list A) :
  find f (l1 ++ l2) = match find f l1 with Some a => Some a | None => find f l2 end.
Proof.
  induction l1 as [|a l1 IH]; simpl; auto.
  destruct (f a); auto.
Qed.

(** The scan loop finds exactly the first entry carrying the code. *)
Lemma scan_lookup (c : string) (d : invites) :
  scan_invites c d scan_init =
  match lookup_code c d with
  | None => scan_init
  | Some (o, en) =>
      match used_by en with
      | Some _ => mk_scan true true None
      | None => mk_scan true false (Some o)
      end
  end.
Proof.
  unfold lookup_code, entries.
  induction d as [|[o l] d IH]; simpl; auto.
  rewrite scan_entries_find, find_app, find_map_pair.
  destruct (find (fun en => String.eqb (code en) c) l) as [en|]; simpl.
  - destruct (used_by en); reflexivity.
  - exact IH.
Qed.

Lemma lookup_code_None (c : string) (d : invites) :
  lookup_code c d = None <->
  (forall o l en, In (o, l) d -> In en l -> code en <> c).
Proof.
  unfold lookup_code. split.
  - intros H o l en Hin Hen Hc.
    assert (Hin' : In (o, en) (entries d)).
    { unfold entries. apply in_flat_map. exists (o, l). split; auto.
      simpl. now apply in_map. }
    apply (find_none _ _ H) in Hin'. simpl in Hin'.
    rewrite Hc, String.eqb_refl in Hin'. discriminate.
  - intros H. destruct (find _ (entries d)) as [[o en]|] eqn:E; auto.
    apply find_some in E. destruct E as [Hin Hc]. simpl in Hc.
    unfold entries in Hin. apply in_flat_map in Hin.
    destruct Hin as [[o' l] [Hd Hl]]. simpl in Hl.
    apply in_map_iff in Hl. destruct Hl as [en' [Heq Hen]].
    inversion Heq; subst.
    apply String.eqb_eq in Hc. exfalso. eapply H; eauto.
Qed.

(** The owner found by the scan has a list in the dict. *)
Lemma lookup_code_owner (c o : string) (en : code_entry) (d : invites) :
  lookup_code c d = Some (o, en) ->
  exists info, dict_get o d = Some info.
Proof.
  unfold lookup_code. intros H. apply find_some in H. destruct H as [Hin _].
  unfold entries in Hin. apply in_flat_map in Hin.
  destruct Hin as [[o' l] [Hd Hl]]. simpl in Hl.
  apply in_map_iff in Hl. destruct Hl as [en' [Heq _]]. inversion Heq; subst.
  destruct (dict_get o d) as [info|] eqn:E; eauto.
  apply dict_get_None_keys in E. exfalso. apply E.
  unfold keys. apply in_map_iff. exists (o, l). auto.
Qed.

(** With distinct keys, the found entry is the first match of its owner's
    own list. *)
Lemma lookup_code_wf (c o : string) (en : code_entry) (d : invites) :
  dict_wf d ->
  lookup_code c d = Some (o, en) ->
  exists info, dict_get o d = Some info /\
               find (fun en' => String.eqb (code en') c) info = Some en.
Proof.
  unfold lookup_code, entries, dict_wf.
  induction d as [|[o' l] d IH]; simpl; [discriminate|].
  intros Hwf. inversion Hwf as [|? ? Hnotin Hwf']; subst.
  rewrite find_app, find_map_pair.
  destruct (find (fun en' => String.eqb (code en') c) l) as [en'|] eqn:E; simpl.
  - intros H. inversion H; subst. rewrite String.eqb_refl. eauto.
  - intros H. destruct (String.eqb_spec o' o) as [->|Hne].
    + exfalso. apply Hnotin. apply find_some in H. destruct H as [Hin _].
      apply in_flat_map in Hin. destruct Hin as [[o2 l2] [Hd Hl]]. simpl in Hl.
      apply in_map_iff in Hl. destruct Hl as [en2 [Heq _]]. inversion Heq; subst.
      apply in_map_iff. exists (o, l2). auto.
    + apply IH; auto.
Qed.


(** ** Running the try block

    [on_submit_try] is run symbolically: the commands are unfolded, the
    state is reduced, and each call into the environment on which the
    run depends is split by cases.  Every leaf is one constructor of
    [try_outcome]. *)

Lemma decide_scan (c uid : string) (inv : invites) :
  let s := scan_invites c inv scan_init in
  match decide c uid inv with
  | Reject MsgNotExist => found_code s = false
  | Reject MsgAlreadyUsed => found_code s = true /\ code_used s = true
  | Reject MsgOwnCode =>
      found_code s = true /\ code_used s = false /\ is_owner uid (owner_id s) = true
  | Reject _ => False
  | Proceed o =>
      found_code s = true /\ code_used s = false /\
      is_owner uid (owner_id s) = false /\ owner_id s = Some o
  end.
Proof.
  simpl. rewrite scan_lookup. unfold decide.
  destruct (lookup_code c inv) as [[o en]|]; simpl; auto.
  destruct (used_by en); simpl; auto.
  destruct (String.eqb uid o) eqn:E; simpl; rewrite ?E; auto.
Qed.

Lemma try_outcome_pair e user_id c w r1 w1 p :
  try_outcome e user_id c w r1 w1 -> p = (r1, w1) ->
  try_outcome e user_id c w (fst p) (snd p).
Proof. now intros H ->. Qed.

(** Reduce projections of explicit states, and nothing else. *)
Ltac red_world :=
  cbn [fst snd invites_file stats_file invites_data queue_position rand_pos
       trace h_get h_set h_name INVITES STATS negb found_code code_used owner_id
       view set_invites_file set_stats_file].

(** Unfold the commands of the try block and reduce. *)
Ltac exec :=
  unfold on_submit_try, enter_queue, sleep, redeem_section, with_lock,
    load_json, save_json, leave_queue, send, mark_code, assign_role,
    get_queue_position, set_queue_position, log, bind, ret, raise, return_,
    set_invites_file, set_stats_file;
  red_world.

(** Rewrite with every equation of the context that still applies. *)
Ltac rw :=
  repeat match goal with
         | H : ?l = _ |- _ =>
             lazymatch l with
             | true => fail
             | false => fail
             | _ => progress rewrite H
             end
         end.

(** Two descriptions of the same final state. *)
Ltac same_world :=
  unfold step_world, commit_head, prologue, new_invites, new_stats, new_count;
  red_world; rw;
  repeat rewrite <- app_assoc; cbn [app]; rewrite ?Z.add_simpl_r; reflexivity.

Lemma decide_proceed_owner (c uid o : string) (inv : invites) :
  decide c uid inv = Proceed o -> exists info, dict_get o inv = Some info.
Proof.
  unfold decide. destruct (lookup_code c inv) as [[o' en]|] eqn:E; [|discriminate].
  destruct (used_by en); [discriminate|].
  destruct (String.eqb uid o'); [discriminate|].
  intros H. inversion H; subst. eapply lookup_code_owner; eauto.
Qed.

Lemma try_outcome_eq e user_id c w r w1 w2 :
  try_outcome e user_id c w r w1 -> w1 = w2 -> try_outcome e user_id c w r w2.
Proof. now intros H <-. Qed.

(** The scrutinee on which evaluation is stuck. *)
Ltac stuck t :=
  lazymatch t with
  | match ?x with _ => _ end => stuck x
  | (match ?x with _ => _ end) _ => stuck x
  | _ => t
  end.

Ltac unfold_cmds :=
  unfold on_submit_try, enter_queue, sleep, redeem_section, with_lock,
    load_json, save_json, leave_queue, send, mark_code, assign_role,
    get_queue_position, set_queue_position, log, bind, ret, raise, return_,
    set_invites_file, set_stats_file.

(** One more case split on the call the run is waiting for. *)
Ltac step :=
  red_world; rw; red_world;
  lazymatch goal with
  | |- try_outcome _ _ _ _ (fst (_, _)) _ => fail
  | |- try_outcome _ _ _ _ (fst ?p) _ =>
      let x := stuck p in destruct x eqn:?
  end.

(** The premises of a constructor are facts of the context. *)
Ltac side :=
  first
    [ eassumption
    | solve [unfold threshold_role, new_count; red_world; rw; reflexivity] ].

Ltac grant_side :=
  first [ solve [eapply G_granted; side]
        | solve [eapply G_no_role; side]
        | solve [eapply G_no_threshold; side] ].

Ltac leaf T :=
  solve [eapply try_outcome_eq; [ eapply T; first [side | grant_side] | same_world ]].

Ltac leaves :=
  red_world;
  first [ leaf T_load_invites | leaf T_load_stats | leaf T_reject
        | leaf T_reject_unsent | leaf T_no_member | leaf T_grant_raises
        | leaf T_save_invites_open | leaf T_save_invites_write
        | leaf T_save_stats_open | leaf T_save_stats_write
        | leaf T_commit | leaf T_commit_unsent ].

Lemma on_submit_try_outcome (e : env) (user_id : Z) (c : string) (w : world) :
  try_outcome e user_id c w
    (fst (on_submit_try e user_id c w)) (snd (on_submit_try e user_id c w)).
Proof.
  destruct w as [fi fs idata q rp tr].
  destruct (readable e INVITES (mk_world fi fs idata q rp tr)) eqn:Ri.
  2:{ eapply try_outcome_pair; [eapply T_load_invites; eauto|].
      unfold readable in Ri; simpl in Ri.
      exec. destruct fi; try discriminate.
      - apply negb_false_iff in Ri. rewrite Ri. same_world.
      - same_world. }
  destruct (readable e STATS (mk_world fi fs idata q rp tr)) eqn:Rs.
  2:{ eapply try_outcome_pair; [eapply T_load_stats; eauto|].
      unfold readable in Ri, Rs; simpl in Ri, Rs.
      exec. destruct fs; try discriminate;
        destruct fi; try discriminate; try apply negb_false_iff in Rs;
        try apply negb_true_iff in Ri; rewrite ?Ri, ?Rs; same_world. }
  pose proof (decide_scan c (str user_id) (view fi)) as Hs. cbv zeta in Hs.
  pose proof (decide_proceed_owner c (str user_id)) as Ho.
  specialize (fun o => Ho o (view fi)).
  pose proof Ri as Ri'. pose proof Rs as Rs'.
  destruct (decide c (str user_id) (view fi)) as [m|o] eqn:D.
  - (* rejections *)
    destruct (send_raises e m) eqn:Sm;
      (eapply try_outcome_pair;
       [ first [eapply T_reject_unsent; solve [eauto] | eapply T_reject; solve [eauto]] |]);
      unfold readable in Ri, Rs; simpl in Ri, Rs;
      destruct fi as [|di|]; try discriminate; destruct fs as [|ds|]; try discriminate;
        try apply negb_true_iff in Ri; try apply negb_true_iff in Rs;
        exec; rewrite ?Ri, ?Rs; red_world; cbn [view] in Hs;
        destruct m; try contradiction;
        repeat match goal with H : _ /\ _ |- _ => destruct H end;
        repeat match goal with H : _ = _ |- _ => rewrite H end; red_world;
        same_world.
  - (* the commit path *)
    destruct (Ho o eq_refl) as [info Hinfo]. clear Ho.
    destruct Hs as (Hf & Hu & Hown & Hoid). rewrite Hoid in Hown.
    unfold readable in Ri', Rs'; cbn in Ri', Rs'.
    destruct fi as [|di|]; try discriminate; destruct fs as [|ds|]; try discriminate;
      try apply negb_true_iff in Ri'; try apply negb_true_iff in Rs';
      cbn [view] in *; unfold_cmds.
    all: repeat step.
    all: leaves.
Qed.


Lemma on_submit_except_run (e : env) (w : world) :
  snd (on_submit_except e w) = handled w.
Proof.
  destruct w as [fi fs idata q rp tr].
  unfold on_submit_except, handled, handler_events, with_lock, leave_queue, send,
    get_queue_position, set_queue_position, log, bind, ret, raise, step_world.
  red_world.
  destruct (0 <? q); destruct (send_raises e MsgError); red_world;
    repeat rewrite <- app_assoc; reflexivity.
Qed.

Lemma on_submit_run (e : env) (user_id : Z) (c : string) (w : world) :
  on_submit_outcome e user_id c w (snd (on_submit e user_id c w)).
Proof.
  pose proof (on_submit_try_outcome e user_id c (deferred w)) as H.
  pose proof (on_submit_except_run e (snd (on_submit_try e user_id c (deferred w)))) as Hx.
  assert (Hd : snd (log EvDefer w) = deferred w) by (destruct w; reflexivity).
  unfold on_submit, def_, defer, try_except, bind, ret, raise.
  destruct (log EvDefer w) as [r0 w0] eqn:E0.
  assert (r0 = Normal tt) by (destruct w; inversion E0; reflexivity).
  subst r0. simpl in Hd. subst w0.
  destruct (defer_raises e) eqn:Ed.
  - simpl. now apply O_defer.
  - destruct (on_submit_try e user_id c (deferred w)) as [r w1].
    simpl in H, Hx. destruct r as [[]| |].
    + simpl. now apply O_completed.
    + simpl. now apply O_returned.
    + destruct (on_submit_except e w1) as [r2 w2]. simpl in Hx. subst w2.
      destruct r2 as [[]| |]; simpl; now apply O_handled.
Qed.

(** ** Normal forms of the states an attempt leaves *)

Lemma step_world_deferred w a b q evs :
  step_world (deferred w) a b q evs = step_world w a b q (EvDefer :: evs).
Proof. destruct w; unfold deferred, step_world; simpl. now rewrite <- app_assoc. Qed.

Lemma handled_step_world w a b q evs :
  handled (step_world w a b q evs) =
  step_world w a b (if 0 <? q then q - 1 else q) (evs ++ handler_events q).
Proof. destruct w; unfold handled, step_world; simpl. now rewrite <- app_assoc. Qed.

Lemma invites_file_step w a b q evs : invites_file (step_world w a b q evs) = a.
Proof. now destruct w. Qed.

Lemma stats_file_step w a b q evs : stats_file (step_world w a b q evs) = b.
Proof. now destruct w. Qed.

Lemma queue_position_step w a b q evs : queue_position (step_world w a b q evs) = q.
Proof. now destruct w. Qed.

Lemma trace_step w a b q evs : trace (step_world w a b q evs) = trace w ++ evs.
Proof. now destruct w. Qed.

Lemma new_events_step w a b q evs : new_events w (step_world w a b q evs) = evs.
Proof.
  unfold new_events. rewrite trace_step.
  induction (trace w) as [|x l IH]; simpl; auto.
Qed.

Lemma new_events_deferred w : new_events w (deferred w) = [EvDefer].
Proof. unfold deferred. apply new_events_step. Qed.

Lemma invites_file_deferred w : invites_file (deferred w) = invites_file w.
Proof. now destruct w. Qed.

Lemma stats_file_deferred w : stats_file (deferred w) = stats_file w.
Proof. now destruct w. Qed.

Lemma queue_position_deferred w : queue_position (deferred w) = queue_position w.
Proof. now destruct w. Qed.

Lemma readable_deferred {V : Type} e (h : handle V) w :
  (h_get h (deferred w) = h_get h w) ->
  readable e h (deferred w) = readable e h w.
Proof. unfold readable. now intros ->. Qed.

Lemma readable_invites_deferred e w :
  readable e INVITES (deferred w) = readable e INVITES w.
Proof. apply readable_deferred. now destruct w. Qed.

Lemma readable_stats_deferred e w :
  readable e STATS (deferred w) = readable e STATS w.
Proof. apply readable_deferred. now destruct w. Qed.

Create Rewrite HintDb world.
#[local] Hint Rewrite step_world_deferred handled_step_world invites_file_step
  stats_file_step queue_position_step trace_step new_events_step
  new_events_deferred invites_file_deferred stats_file_deferred queue_position_deferred
  readable_invites_deferred readable_stats_deferred : world.

(** Split a call of [on_submit] into the ways it can end. *)
Ltac outcomes e u c w :=
  let H := fresh "Hrun" in
  let Ht := fresh "Htry" in
  pose proof (on_submit_run e u c w) as H;
  destruct H as [?Hdefer | ?w1 ?Hdefer Ht | ?w1 ?Hdefer Ht | ?w1 ?Hdefer Ht];
  [ | inversion Ht; subst; clear Ht .. ];
  autorewrite with world in *.


(** ** Persistence per attempt *)

Lemma In_handler_send q m :
  In (EvSend m) (handler_events q) -> m = MsgError.
Proof.
  unfold handler_events. destruct (0 <? q); simpl; intuition congruence.
Qed.

Lemma In_commit_head_send q c uid o info n m :
  ~ In (EvSend m) (commit_head q c uid o info n).
Proof.
  unfold commit_head, prologue. destruct (has_code c info); simpl;
    intuition discriminate.
Qed.

Lemma In_grant_send e u n G m : grant_ok e u n G -> ~ In (EvSend m) G.
Proof.
  intros [| |]; simpl; intuition discriminate.
Qed.

(** Find which message of a run a hypothesis [In (EvSend m) _] speaks of. *)
Ltac no_send :=
  repeat match goal with
         | H : In _ (_ :: _) |- _ =>
             destruct H as [H|H];
             [try discriminate; try (inversion H; subst; clear H)|]
         | H : In _ (_ ++ _) |- _ => apply in_app_or in H; destruct H as [H|H]
         | H : In _ [] |- _ => contradiction
         | H : In (EvSend _) (handler_events _) |- _ =>
             apply In_handler_send in H; subst; try discriminate
         | H : In (EvSend _) (commit_head _ _ _ _ _ _) |- _ =>
             apply In_commit_head_send in H; contradiction
         | H : In (EvSend _) (prologue _) |- _ =>
             unfold prologue in H
         | Hg : grant_ok _ _ _ ?G, H : In (EvSend _) ?G |- _ =>
             apply (In_grant_send _ _ _ _ _ Hg) in H; contradiction
         end.

(** C1, as the code has it: an attempt that answers with a rejection
    leaves both files as they were; and as long as no write fails once
    writing has begun, an attempt leaves either both files untouched or
    both files holding the committed snapshot.  The two files are
    written one after the other, so a write that fails in between is
    not covered. *)
Theorem on_submit_all_or_nothing (e : env) (user_id : Z) (c : string) (w : world) :
  let w' := snd (on_submit e user_id c w) in
  (forall m, is_rejection m = true -> In (EvSend m) (new_events w w') ->
             files_unchanged w w') /\
  (atomic_saves e -> all_or_nothing user_id c w w').
Proof.
  cbv zeta. unfold all_or_nothing, files_unchanged, atomic_saves, committed.
  outcomes e user_id c w.
  all: split; [ intros msg Hm Hin | intros Hat ].
  all: autorewrite with world in *.
  all: try solve [split; reflexivity | left; split; reflexivity].
  all: try solve [exfalso; no_send; simpl in Hm; try discriminate; try congruence].
  all: try solve [exfalso; destruct Hat as [?|[? ?]]; congruence].
  all: right; exists o, info; auto.
Qed.

Lemma on_submit_all_or_nothing_witness :
  files_unchanged world_A (snd (on_submit calm 42 "UD-012345" world_A)) /\
  all_or_nothing 7 "UD-012345" world_A (snd (on_submit calm 7 "UD-012345" world_A)).
Proof.
  split.
  - apply (proj1 (on_submit_all_or_nothing calm 42 "UD-012345" world_A) MsgOwnCode).
    + reflexivity.
    + vm_compute. intuition.
  - apply (proj2 (on_submit_all_or_nothing calm 7 "UD-012345" world_A)).
    right. split; reflexivity.
Defined.

(** With the stats file not writable the invites file is rewritten and
    the stats file is not. *)
Lemma on_submit_torn_by_stats_write :
  ~ all_or_nothing 7 "UD-012345" world_A
      (snd (on_submit stats_locked 7 "UD-012345" world_A)).
Proof.
  intros [[Hi _] | (o & info & _ & _ & _ & Hs)].
  - vm_compute in Hi. discriminate.
  - vm_compute in Hs. discriminate.
Qed.



(** ** Recognising a successful redemption *)

Lemma last_app_cons {A : Type} (l : list A) (x : A) (r : list A) (d : A) :
  last (l ++ x :: r) d = last (x :: r) d.
Proof.
  induction l as [|a l IH]; auto.
  simpl app. rewrite <- IH. simpl. destruct (l ++ x :: r) eqn:E; auto.
  destruct l; discriminate.
Qed.

Lemma last_handler (l : list event) (q : Z) (d : event) :
  last (l ++ handler_events q) d = EvSend MsgError.
Proof.
  unfold handler_events. rewrite last_app_cons.
  destruct (0 <? q); reflexivity.
Qed.

Lemma last_cons_handler (a : event) (l : list event) (q : Z) (d : event) :
  last (a :: l ++ handler_events q) d = EvSend MsgError.
Proof. rewrite app_comm_cons. apply last_handler. Qed.

Lemma last_cons_app_app {A : Type} (a : A) (l1 l2 : list A) (x : A) (r : list A) (d : A) :
  last (a :: l1 ++ l2 ++ x :: r) d = last (x :: r) d.
Proof. rewrite app_comm_cons, app_assoc. apply last_app_cons. Qed.

(** The facts behind a successful redemption, and the state it leaves. *)
Lemma redeemed_inv (e : env) (user_id : Z) (c : string) (n : Z) (w : world) :
  redeemed c n w (snd (on_submit e user_id c w)) ->
  n = new_count (str user_id) (view (stats_file w)) /\
  defer_raises e = false /\
  readable e INVITES w = true /\ readable e STATS w = true /\
  exists o info G,
    decide c (str user_id) (view (invites_file w)) = Proceed o /\
    dict_get o (view (invites_file w)) = Some info /\
    grant_ok e user_id n G /\
    save_fault e INVITES_FILE = io_ok /\
    save_fault e STATS_FILE = io_ok /\
    send_raises e (MsgSuccess c n) = false /\
    snd (on_submit e user_id c w) =
    step_world w
      (Stored (new_invites c (str user_id) o info (view (invites_file w))))
      (Stored (new_stats (str user_id) (view (stats_file w))))
      (queue_position w)
      (EvDefer :: commit_head (queue_position w) c (str user_id) o info n ++ G
         ++ [EvSave INVITES_FILE; EvSave STATS_FILE; EvLeave; EvRelease;
             EvSend (MsgSuccess c n)]).
Proof.
  unfold redeemed.
  outcomes e user_id c w; intros Hlast; autorewrite with world in Hlast.
  all: try (rewrite last_cons_handler in Hlast; discriminate).
  all: try (rewrite last_cons_app_app in Hlast; simpl in Hlast).
  all: try (unfold prologue in Hlast; simpl in Hlast; discriminate).
  all: try (simpl in Hlast; discriminate).
  injection Hlast as Hn. subst n.
  repeat split; auto. exists o, info, G. repeat split; auto.
Qed.

(** ** The order of the steps of a redemption *)

Lemma grant_ok_granted e u n G : grant_ok e u n G -> G = granted e n.
Proof.
  unfold granted. intros [H | r H Hr | r roles H Hr _ _]; rewrite H; auto;
    now rewrite Hr.
Qed.

Lemma decide_proceed_lookup c uid o inv :
  decide c uid inv = Proceed o ->
  exists en, lookup_code c inv = Some (o, en) /\ used_by en = None /\ uid <> o.
Proof.
  unfold decide. destruct (lookup_code c inv) as [[o' en]|]; [|discriminate].
  destruct (used_by en) eqn:E; [discriminate|].
  destruct (String.eqb_spec uid o'); [discriminate|].
  intros H. inversion H; subst. eauto.
Qed.

Lemma find_has_code c info en :
  find (fun en' => String.eqb (code en') c) info = Some en -> has_code c info = true.
Proof.
  intros H. apply find_some in H. unfold has_code. apply existsb_exists. eauto.
Qed.

(** With distinct keys the marking loop meets the entry the scan found. *)
Lemma proceed_wf c uid o info inv :
  dict_wf inv -> decide c uid inv = Proceed o -> dict_get o inv = Some info ->
  exists en, find (fun en' => String.eqb (code en') c) info = Some en /\
             used_by en = None /\ uid <> o.
Proof.
  intros Hwf Hd Hg. apply decide_proceed_lookup in Hd.
  destruct Hd as (en & Hl & Hu & Hne).
  destruct (lookup_code_wf _ _ _ _ Hwf Hl) as (info' & Hg' & Hf).
  rewrite Hg in Hg'. inversion Hg'; subst. eauto.
Qed.

(** C2, as the code has it: the role is granted inside the critical
    section, before either file is written; the ticket is given back
    before the lock. *)
Theorem on_submit_commit_order (e : env) (user_id : Z) (c : string) (n : Z) (w : world) :
  dict_wf (view (invites_file w)) ->
  redeemed c n w (snd (on_submit e user_id c w)) ->
  exists o,
    let before := commit_steps (queue_position w) o c (str user_id) n in
    new_events w (snd (on_submit e user_id c w)) =
      before ++ granted e n
        ++ [EvSave INVITES_FILE; EvSave STATS_FILE; EvLeave; EvRelease;
            EvSend (MsgSuccess c n)] /\
    lock_held before = true /\
    ~ In (EvSave INVITES_FILE) before /\ ~ In (EvSave STATS_FILE) before.
Proof.
  intros Hwf Hr. apply redeemed_inv in Hr.
  destruct Hr as (Hn & Hd & Hri & Hrs & o & info & G & Hdec & Hget & Hg & _ & _ & _ & Hw).
  exists o. cbv zeta. rewrite Hw, new_events_step.
  destruct (proceed_wf _ _ _ _ _ Hwf Hdec Hget) as (en & Hf & _ & _).
  apply find_has_code in Hf.
  rewrite (grant_ok_granted _ _ _ _ Hg).
  unfold commit_head, commit_steps, prologue. rewrite Hf.
  repeat split.
  - simpl. intuition discriminate.
  - simpl. intuition discriminate.
Qed.

Lemma on_submit_commit_order_witness :
  exists o,
    new_events world_A (snd (on_submit calm 7 "UD-012345" world_A)) =
      commit_steps 0 o "UD-012345" (str 7) 1 ++ granted calm 1
        ++ [EvSave INVITES_FILE; EvSave STATS_FILE; EvLeave; EvRelease;
            EvSend (MsgSuccess "UD-012345" 1)].
Proof.
  destruct (on_submit_commit_order calm 7 "UD-012345" 1 world_A) as (o & H & _).
  - unfold dict_wf. simpl. repeat constructor. intros [].
  - reflexivity.
  - exists o. exact H.
Defined.

(** In the run of the witness the first-invite role is granted while the
    lock is held and before any file is written. *)
Lemma role_granted_inside_lock :
  ~ grants_after_commit
      (new_events world_A (snd (on_submit calm 7 "UD-012345" world_A))).
Proof.
  intros H.
  destruct (H (commit_steps 0 "42" "UD-012345" (str 7) 1) FIRST_INVITE_ROLE_ID
              [EvSave INVITES_FILE; EvSave STATS_FILE; EvLeave; EvRelease;
               EvSend (MsgSuccess "UD-012345" 1)] eq_refl) as [Hl _].
  discriminate Hl.
Qed.

(** ** Validation *)

Lemma replies_app l1 l2 : replies (l1 ++ l2) = replies l1 ++ replies l2.
Proof. unfold replies. apply flat_map_app. Qed.

Lemma grants_app l1 l2 : grants (l1 ++ l2) = grants l1 ++ grants l2.
Proof. unfold grants. apply flat_map_app. Qed.

Lemma replies_handler q : replies (handler_events q) = [MsgError].
Proof. unfold handler_events. now destruct (0 <? q). Qed.

Lemma grants_handler q : grants (handler_events q) = [].
Proof. unfold handler_events. now destruct (0 <? q). Qed.

Lemma replies_commit_head q c uid o info n :
  replies (commit_head q c uid o info n) = [].
Proof. unfold commit_head. now destruct (has_code c info). Qed.

Lemma grants_commit_head q c uid o info n :
  grants (commit_head q c uid o info n) = [].
Proof. unfold commit_head. now destruct (has_code c info). Qed.

Lemma replies_grant_ok e u n G : grant_ok e u n G -> replies G = [].
Proof. now intros [| |]. Qed.

Lemma replies_defer l : replies (EvDefer :: l) = replies l.
Proof. reflexivity. Qed.

Lemma grants_defer l : grants (EvDefer :: l) = grants l.
Proof. reflexivity. Qed.

(** The messages sent along a run, read off hypothesis [H]. *)
Ltac said_in H :=
  repeat first
    [ rewrite replies_defer in H | rewrite replies_app in H
    | rewrite replies_commit_head in H | rewrite replies_handler in H
    | match goal with
      | Hg : grant_ok _ _ _ ?G |- _ =>
          rewrite (replies_grant_ok _ _ _ _ Hg) in H
      end ];
  cbn [replies flat_map app] in H.

(** The state a rejected attempt leaves. *)
Lemma on_submit_reject (e : env) (user_id : Z) (c : string) (w : world) (m : message) :
  defer_raises e = false ->
  readable e INVITES w = true -> readable e STATS w = true ->
  decide c (str user_id) (view (invites_file w)) = Reject m ->
  let q := queue_position w in
  snd (on_submit e user_id c w) =
  step_world w (invites_file w) (stats_file w)
    (if send_raises e m then (if 0 <? q then q - 1 else q) else q)
    (EvDefer :: (prologue q ++ [EvLoad INVITES_FILE; EvLoad STATS_FILE;
                                EvLeave; EvSend m; EvRelease])
       ++ (if send_raises e m then handler_events q else [])).
Proof.
  intros Hd Hi Hs Hdec. cbv zeta.
  outcomes e user_id c w; try congruence.
  - assert (m0 = m) by congruence. subst m0.
    match goal with H : send_raises e m = true |- _ => now rewrite H end.
  - assert (m0 = m) by congruence. subst m0.
    match goal with H : send_raises e m = false |- _ => rewrite H end.
    now rewrite app_nil_r.
Qed.

Lemma decide_cases c uid inv :
  (lookup_code c inv = None -> decide c uid inv = Reject MsgNotExist) /\
  (forall o en r, lookup_code c inv = Some (o, en) -> used_by en = Some r ->
                  decide c uid inv = Reject MsgAlreadyUsed) /\
  (forall o en, lookup_code c inv = Some (o, en) -> used_by en = None -> o = uid ->
                decide c uid inv = Reject MsgOwnCode) /\
  (forall o en, lookup_code c inv = Some (o, en) -> used_by en = None -> o <> uid ->
                decide c uid inv = Proceed o).
Proof.
  unfold decide. repeat split.
  - now intros ->.
  - intros o en r -> ->. reflexivity.
  - intros o en -> -> ->. now rewrite String.eqb_refl.
  - intros o en -> -> Hne. destruct (String.eqb_spec uid o); congruence.
Qed.

Lemma reject_reply_first e u c w m :
  defer_raises e = false ->
  readable e INVITES w = true -> readable e STATS w = true ->
  decide c (str u) (view (invites_file w)) = Reject m ->
  hd_error (replies (new_events w (snd (on_submit e u c w)))) = Some m /\
  files_unchanged w (snd (on_submit e u c w)).
Proof.
  intros Hd Hi Hs Hdec.
  rewrite (on_submit_reject e u c w m Hd Hi Hs Hdec).
  unfold files_unchanged. autorewrite with world. repeat split.
Qed.

Lemma mark_used_at c uid info en :
  find (fun x => String.eqb (code x) c) info = Some en ->
  exists i,
    nth_error info i = Some en /\ code en = c /\
    mark_used c uid info =
    firstn i info ++ mk_entry c (Some uid) :: skipn (S i) info.
Proof.
  induction info as [|a l IH]; simpl; [discriminate|].
  destruct (String.eqb_spec (code a) c) as [Hc|Hc].
  - intros H. inversion H; subst a. exists O. simpl. now rewrite Hc.
  - intros H. destruct (IH H) as (i & Hn & Hcode & Hm).
    exists (S i). simpl. rewrite Hm. auto.
Qed.

Lemma keys_new_invites c uid o info inv :
  dict_get o inv = Some info -> keys (new_invites c uid o info inv) = keys inv.
Proof. intros H. unfold new_invites. eapply keys_dict_set_present; eauto. Qed.

(** What a redemption that ended in its success message wrote, told
    without the program's own loops: the entry the lookup found, at its
    place in its owner's list, now names the redeemer. *)
Lemma redeemed_entry (e : env) (user_id : Z) (c : string) (n : Z) (w : world)
    (o : string) (en : code_entry) :
  dict_wf (view (invites_file w)) ->
  lookup_code c (view (invites_file w)) = Some (o, en) ->
  redeemed c n w (snd (on_submit e user_id c w)) ->
  exists info i inv' st',
    invites_file (snd (on_submit e user_id c w)) = Stored inv' /\
    stats_file (snd (on_submit e user_id c w)) = Stored st' /\
    dict_get o (view (invites_file w)) = Some info /\
    nth_error info i = Some en /\ en = mk_entry c None /\
    keys inv' = keys (view (invites_file w)) /\
    dict_get o inv' =
      Some (firstn i info ++ mk_entry c (Some (str user_id)) :: skipn (S i) info) /\
    (forall o', o' <> o -> dict_get o' inv' = dict_get o' (view (invites_file w))) /\
    dict_get (str user_id) st' = Some n /\
    (forall k, k <> str user_id -> dict_get k st' = dict_get k (view (stats_file w))).
Proof.
  intros Hwf Hl Hr. apply redeemed_inv in Hr.
  destruct Hr as (Hn & Hd & Hri & Hrs & o0 & info & G & Hdec & Hget & Hg & _ & _ & _ & Hw).
  destruct (decide_proceed_lookup _ _ _ _ Hdec) as (en0 & Hl0 & Hu0 & _).
  rewrite Hl in Hl0. inversion Hl0; subst o0 en0. clear Hl0.
  destruct (lookup_code_wf _ _ _ _ Hwf Hl) as (info' & Hget' & Hf).
  unfold invite_info in *. rewrite Hget in Hget'. inversion Hget'; subst info'. clear Hget'.
  destruct (mark_used_at c (str user_id) info en Hf) as (i & Hnth & Hcode & Hmark).
  assert (Hen : en = mk_entry c None) by (destruct en; simpl in *; congruence).
  exists info, i, (new_invites c (str user_id) o info (view (invites_file w))),
    (new_stats (str user_id) (view (stats_file w))).
  rewrite Hw, invites_file_step, stats_file_step.
  repeat split; auto.
  - now apply keys_new_invites.
  - unfold new_invites. now rewrite dict_get_set_same, Hmark.
  - intros o' Hne. unfold new_invites. now apply dict_get_set_other.
  - unfold new_stats. rewrite dict_get_set_same. now rewrite Hn.
  - intros k Hne. unfold new_stats. now apply dict_get_set_other.
Qed.

(** C3: the validation runs in the order unknown code, used code, own
    code, and only then commits: the entry the lookup found is the one
    that ends up naming the redeemer, and the redeemer's count is the
    one that goes up. *)
Theorem on_submit_validation_order (e : env) (user_id : Z) (c : string) (w : world) :
  defer_raises e = false ->
  readable e INVITES w = true -> readable e STATS w = true ->
  let inv := view (invites_file w) in
  let st := view (stats_file w) in
  let w' := snd (on_submit e user_id c w) in
  let said := replies (new_events w w') in
  ((forall o l en, In (o, l) inv -> In en l -> code en <> c) ->
   hd_error said = Some MsgNotExist /\ files_unchanged w w') /\
  (forall o en r, lookup_code c inv = Some (o, en) -> used_by en = Some r ->
   hd_error said = Some MsgAlreadyUsed /\ files_unchanged w w') /\
  (forall o en, lookup_code c inv = Some (o, en) -> used_by en = None ->
   o = str user_id ->
   hd_error said = Some MsgOwnCode /\ files_unchanged w w') /\
  (forall o en, lookup_code c inv = Some (o, en) -> used_by en = None ->
   o <> str user_id ->
   (forall m, In m said -> is_rejection m = false) /\
   (let n := new_count (str user_id) st in
    unhindered e user_id c n ->
    redeemed c n w w' /\ committed user_id c w w' /\
    (dict_wf inv ->
     exists info i inv' st',
       invites_file w' = Stored inv' /\ stats_file w' = Stored st' /\
       dict_get o inv = Some info /\
       nth_error info i = Some en /\ en = mk_entry c None /\
       keys inv' = keys inv /\
       dict_get o inv' =
         Some (firstn i info ++ mk_entry c (Some (str user_id)) :: skipn (S i) info) /\
       (forall o', o' <> o -> dict_get o' inv' = dict_get o' inv) /\
       dict_get (str user_id) st' = Some (dict_get_default (str user_id) 0 st + 1) /\
       (forall k, k <> str user_id -> dict_get k st' = dict_get k st)))).
Proof.
  intros Hd Hi Hs. cbv zeta.
  destruct (decide_cases c (str user_id) (view (invites_file w)))
    as (D1 & D2 & D3 & D4).
  split; [|split; [|split]].
  - intros Hnone. apply (reject_reply_first e user_id c w MsgNotExist); auto.
    apply D1. now apply lookup_code_None.
  - intros o en r Hl Hu.
    apply (reject_reply_first e user_id c w MsgAlreadyUsed); eauto.
  - intros o en Hl Hu Ho.
    apply (reject_reply_first e user_id c w MsgOwnCode); eauto.
  - intros o en Hl Hu Ho.
    assert (Hdec : decide c (str user_id) (view (invites_file w)) = Proceed o)
      by (apply (D4 o en); auto).
    clear D1 D2 D3 D4. split.
    + outcomes e user_id c w; try congruence; intros msg Hin.
      all: said_in Hin.
      all: repeat (destruct Hin as [Hin|Hin]; [subst msg; reflexivity|]).
      all: try contradiction.
    + intros (HG & Hsi & Hss & Hsend).
      destruct HG as [G0 HG0].
      assert (Hrc : redeemed c (new_count (str user_id) (view (stats_file w))) w
                      (snd (on_submit e user_id c w)) /\
                    committed user_id c w (snd (on_submit e user_id c w))).
      { unfold redeemed, committed.
        outcomes e user_id c w; try congruence.
        all: try solve [exfalso;
          repeat match goal with
                 | Hg : grant_ok _ _ _ _ |- _ => inversion Hg; clear Hg
                 end; congruence].
        split.
        * rewrite last_cons_app_app. reflexivity.
        * exists o0, info. auto. }
      destruct Hrc as [Hred Hcom]. split; [exact Hred|]. split; [exact Hcom|].
      intros Hwf. exact (redeemed_entry e user_id c _ w o en Hwf Hl Hred).
Qed.

Lemma on_submit_validation_order_witness :
  hd_error (replies (new_events world_A (snd (on_submit calm 42 "UD-012345" world_A))))
    = Some MsgOwnCode /\
  redeemed "UD-012345" 1 world_A (snd (on_submit calm 7 "UD-012345" world_A)) /\
  exists info i inv',
    invites_file (snd (on_submit calm 7 "UD-012345" world_A)) = Stored inv' /\
    dict_get "42" ledger_A = Some info /\
    nth_error info i = Some (mk_entry "UD-012345" None) /\
    dict_get "42" inv' =
      Some (firstn i info ++ mk_entry "UD-012345" (Some (str 7)) :: skipn (S i) info).
Proof.
  pose proof (on_submit_validation_order calm 42 "UD-012345" world_A
                eq_refl eq_refl eq_refl) as (_ & _ & H3 & _).
  pose proof (on_submit_validation_order calm 7 "UD-012345" world_A
                eq_refl eq_refl eq_refl) as (_ & _ & _ & H4).
  split.
  - apply (H3 "42"%string (mk_entry "UD-012345" None)); reflexivity.
  - destruct (H4 "42"%string (mk_entry "UD-012345" None)) as [_ H5];
      [reflexivity | reflexivity | discriminate |].
    destruct H5 as (Hred & _ & Hentry).
    + repeat split; try reflexivity.
      exists [EvGrant FIRST_INVITE_ROLE_ID].
      apply (G_granted calm 7 1 FIRST_INVITE_ROLE_ID [INVITE_GENERATOR_ROLE_ID]);
        reflexivity.
    + split; [exact Hred|].
      destruct Hentry as (info & i & inv' & st' & E1 & _ & E3 & E4 & _ & _ & E7 & _).
      * unfold dict_wf. simpl. repeat constructor. intros [].
      * exists info, i, inv'. auto.
Defined.

(** ** The queue counter *)

Lemma decide_reject_is_rejection c uid inv m :
  decide c uid inv = Reject m -> is_rejection m = true.
Proof.
  unfold decide. destruct (lookup_code c inv) as [[o en]|].
  - destruct (used_by en); [intros H; now inversion H|].
    destruct (String.eqb uid o); intros H; now inversion H.
  - intros H; now inversion H.
Qed.

(** When no follow-up message fails to send, the counter is back at its
    value once the attempt is over. *)
Lemma on_submit_ticket_returned (e : env) (user_id : Z) (c : string) (w : world) :
  0 <= queue_position w ->
  defer_raises e = false ->
  (forall m, m <> MsgError -> send_raises e m = false) ->
  queue_position (snd (on_submit e user_id c w)) = queue_position w.
Proof.
  intros Hq Hd Hsend.
  outcomes e user_id c w; try congruence; auto.
  all: try match goal with
           | H : send_raises _ ?m = true |- _ =>
               rewrite Hsend in H by (intro; subst; discriminate);
               try discriminate
           end.
  all: try (destruct (0 <? queue_position w + 1) eqn:E;
            [lia | apply Z.ltb_ge in E; lia]).
  all: match goal with
       | H : decide _ _ _ = Reject ?m, H' : send_raises _ ?m = true |- _ =>
           apply decide_reject_is_rejection in H;
           rewrite Hsend in H' by (intro; subst; discriminate); discriminate
       end.
Qed.

(** C4 does not hold on this path: when the follow-up message of a
    rejection cannot be sent while another attempt holds a ticket, the
    counter is decremented twice for one increment, once before the
    [send] and once more in the [except] handler. *)
Theorem on_submit_leaves_twice (e : env) (user_id : Z) (c : string) (w : world)
    (m : message) :
  defer_raises e = false ->
  readable e INVITES w = true -> readable e STATS w = true ->
  decide c (str user_id) (view (invites_file w)) = Reject m ->
  send_raises e m = true ->
  0 < queue_position w ->
  queue_position (snd (on_submit e user_id c w)) = queue_position w - 1.
Proof.
  intros Hd Hi Hs Hdec Hsend Hq.
  rewrite (on_submit_reject e user_id c w m Hd Hi Hs Hdec).
  rewrite queue_position_step, Hsend.
  apply Z.ltb_lt in Hq. now rewrite Hq.
Qed.

Lemma on_submit_leaves_twice_witness :
  queue_position (snd (on_submit mute 7 "UD-999999" world_A_busy)) = 0.
Proof.
  apply (on_submit_leaves_twice mute 7 "UD-999999" world_A_busy MsgNotExist);
    reflexivity.
Defined.

(** ** Used codes stay used *)

Lemma entry_le_refl a : entry_le a a.
Proof. split; auto. Qed.

Lemma info_le_refl l : Forall2 entry_le l l.
Proof. induction l; constructor; auto using entry_le_refl. Qed.

Lemma ledger_le_refl d : ledger_le d d.
Proof.
  unfold ledger_le. induction d; constructor; auto using info_le_refl.
Qed.

Lemma info_le_trans l1 l2 l3 :
  Forall2 entry_le l1 l2 -> Forall2 entry_le l2 l3 -> Forall2 entry_le l1 l3.
Proof.
  intros H. revert l3. induction H as [|a b l1 l2 [Hc Hu] _ IH]; intros l3 H3;
    inversion H3 as [|b' c' l2' l3' [Hc' Hu'] Hl]; subst; constructor; auto.
  split; [congruence | auto].
Qed.

Lemma ledger_le_trans d1 d2 d3 :
  ledger_le d1 d2 -> ledger_le d2 d3 -> ledger_le d1 d3.
Proof.
  unfold ledger_le. intros H. revert d3.
  induction H as [|a b l1 l2 [Hk Hi] _ IH]; intros d3 H3;
    inversion H3 as [|b' c' l2' l3' [Hk' Hi'] Hl]; subst; constructor; auto.
  split; [congruence | eapply info_le_trans; eauto].
Qed.

(** Marking leaves every used entry alone when the first entry with the
    code, if there is one, is unused. *)
Lemma mark_used_le c uid info :
  (forall en, find (fun en' => String.eqb (code en') c) info = Some en ->
              used_by en = None) ->
  Forall2 entry_le info (mark_used c uid info).
Proof.
  induction info as [|a l IH]; simpl; intros H; [constructor|].
  destruct (String.eqb (code a) c) eqn:E.
  - constructor; [|apply info_le_refl].
    split; auto. simpl. intros r Hr. rewrite (H a eq_refl) in Hr. discriminate.
  - constructor; auto using entry_le_refl.
Qed.

Lemma dict_set_le o info info' d :
  dict_get o d = Some info -> Forall2 entry_le info info' ->
  ledger_le d (dict_set o info' d).
Proof.
  unfold ledger_le. induction d as [|[k v] d IH]; simpl; [discriminate|].
  destruct (String.eqb k o) eqn:E; intros Hg Hle.
  - inversion Hg; subst. constructor; [split; auto|]. apply ledger_le_refl.
  - constructor; [split; auto using info_le_refl|]. auto.
Qed.

(** The first list stored under the found owner holds the found entry as
    its first match, or holds no match at all. *)
Lemma lookup_first_list c o en info d :
  lookup_code c d = Some (o, en) -> dict_get o d = Some info ->
  forall en', find (fun x => String.eqb (code x) c) info = Some en' -> en' = en.
Proof.
  unfold lookup_code, entries.
  induction d as [|[o' l] d IH]; simpl; [discriminate|].
  rewrite find_app, find_map_pair.
  destruct (find (fun x => String.eqb (code x) c) l) as [x|] eqn:E; simpl.
  - intros H. inversion H; subst. rewrite String.eqb_refl.
    intros Hg en' Hf. inversion Hg; subst. congruence.
  - destruct (String.eqb o' o) eqn:Eo.
    + intros _ Hg en' Hf. inversion Hg; subst. congruence.
    + auto.
Qed.

Lemma new_invites_le c uid o info inv :
  decide c uid inv = Proceed o -> dict_get o inv = Some info ->
  ledger_le inv (new_invites c uid o info inv).
Proof.
  intros Hd Hg. apply decide_proceed_lookup in Hd.
  destruct Hd as (en & Hl & Hu & _).
  unfold new_invites. eapply dict_set_le; eauto.
  apply mark_used_le. intros en' Hf.
  now rewrite (lookup_first_list _ _ _ _ _ Hl Hg en' Hf).
Qed.

(** One attempt: the invites file keeps its ledger, grows it, or is left
    unreadable by a write that failed half-way. *)
Lemma on_submit_ledger_step e u c w inv :
  invites_file w = Stored inv ->
  (exists inv', invites_file (snd (on_submit e u c w)) = Stored inv' /\
                ledger_le inv inv') \/
  invites_file (snd (on_submit e u c w)) = Garbled.
Proof.
  intros Hw.
  outcomes e u c w; auto.
  all: try solve [left; exists inv; split; auto using ledger_le_refl].
  all: left; eexists; split; [reflexivity|];
       rewrite Hw in *; simpl in *; now apply new_invites_le.
Qed.

Lemma on_submit_garbled_stays e u c w :
  invites_file w = Garbled -> invites_file (snd (on_submit e u c w)) = Garbled.
Proof.
  intros Hw.
  assert (Hr : readable e INVITES w = false) by (unfold readable; simpl; now rewrite Hw).
  outcomes e u c w; auto; congruence.
Qed.

Lemma run_attempts_garbled l w :
  invites_file w = Garbled -> invites_file (run_attempts l w) = Garbled.
Proof.
  revert w. induction l as [|a l IH]; simpl; auto.
  intros w Hw. apply IH. now apply on_submit_garbled_stays.
Qed.

Lemma run_attempts_ledger l w inv inv' :
  invites_file w = Stored inv ->
  invites_file (run_attempts l w) = Stored inv' ->
  ledger_le inv inv'.
Proof.
  revert w inv. induction l as [|a l IH]; simpl; intros w inv Hw Hend.
  - rewrite Hw in Hend. inversion Hend. apply ledger_le_refl.
  - destruct (on_submit_ledger_step (a_env a) (a_user a) (a_code a) w inv Hw)
      as [(inv1 & H1 & Hle) | Hg].
    + eapply ledger_le_trans; eauto.
    + rewrite (run_attempts_garbled l _ Hg) in Hend. discriminate.
Qed.

Lemma find_mark_used c uid info en :
  find (fun x => String.eqb (code x) c) info = Some en ->
  find (fun x => String.eqb (code x) c) (mark_used c uid info) =
  Some (mk_entry (code en) (Some uid)).
Proof.
  induction info as [|a l IH]; simpl; [discriminate|].
  destruct (String.eqb (code a) c) eqn:E; simpl.
  - intros H. inversion H; subst. now rewrite E.
  - rewrite E. auto.
Qed.

(** After the commit the scan meets the same entry, now used. *)
Lemma lookup_after_mark c uid o en info inv :
  dict_wf inv ->
  lookup_code c inv = Some (o, en) -> dict_get o inv = Some info ->
  lookup_code c (new_invites c uid o info inv) =
  Some (o, mk_entry (code en) (Some uid)).
Proof.
  unfold lookup_code, entries, dict_wf, new_invites.
  induction inv as [|[o' l] d IH]; simpl; [discriminate|].
  intros Hwf. inversion Hwf as [|? ? Hnotin Hwf']; subst.
  rewrite find_app, find_map_pair.
  destruct (find (fun x => String.eqb (code x) c) l) as [x|] eqn:E; simpl.
  - intros H. inversion H; subst. rewrite String.eqb_refl.
    intros Hg. inversion Hg; subst. simpl.
    rewrite find_app, find_map_pair, (find_mark_used _ _ _ _ E). reflexivity.
  - intros H. destruct (String.eqb_spec o' o) as [->|Hne].
    + exfalso. apply Hnotin. apply find_some in H. destruct H as [Hin _].
      apply in_flat_map in Hin. destruct Hin as [[o2 l2] [Hd Hl]]. simpl in Hl.
      apply in_map_iff in Hl. destruct Hl as [en2 [Heq _]]. inversion Heq; subst.
      apply in_map_iff. exists (o, l2). auto.
    + intros Hg. simpl. rewrite find_app, find_map_pair, E. simpl. auto.
Qed.

(** An attempt the validation refuses writes nothing, whatever else
    goes wrong around it. *)
Lemma reject_keeps_files e u c w m :
  decide c (str u) (view (invites_file w)) = Reject m ->
  files_unchanged w (snd (on_submit e u c w)).
Proof.
  intros Hdec. unfold files_unchanged.
  outcomes e u c w; try congruence; split; reflexivity.
Qed.

(** C5: a code redeemed once is refused ever after: a later attempt on
    it changes neither file and, when it gets to read the files, answers
    that the code is already used; and over any sequence of attempts no
    recorded redeemer is ever cleared or replaced. *)
Theorem used_code_stays_used :
  (forall (e1 e2 : env) (u1 u2 : Z) (c : string) (n : Z) (w : world),
      let w1 := snd (on_submit e1 u1 c w) in
      let w2 := snd (on_submit e2 u2 c w1) in
      dict_wf (view (invites_file w)) ->
      redeemed c n w w1 ->
      files_unchanged w1 w2 /\
      (defer_raises e2 = false ->
       load_raises e2 INVITES_FILE = false -> load_raises e2 STATS_FILE = false ->
       hd_error (replies (new_events w1 w2)) = Some MsgAlreadyUsed)) /\
  (forall (l : list attempt) (w : world) (inv inv' : invites),
      invites_file w = Stored inv ->
      invites_file (run_attempts l w) = Stored inv' ->
      ledger_le inv inv').
Proof.
  split; [|exact run_attempts_ledger].
  intros e1 e2 u1 u2 c n w. cbv zeta. intros Hwf Hr.
  apply redeemed_inv in Hr.
  destruct Hr as (Hn & Hd & Hri & Hrs & o & info & G & Hdec & Hget & Hg & _ & _ & _ & Hw).
  rewrite Hw.
  set (w1 := step_world _ _ _ _ _).
  assert (Hi1 : invites_file w1 =
                Stored (new_invites c (str u1) o info (view (invites_file w))))
    by (unfold w1; now rewrite invites_file_step).
  assert (Hs1 : stats_file w1 = Stored (new_stats (str u1) (view (stats_file w))))
    by (unfold w1; now rewrite stats_file_step).
  assert (Hdec2 : decide c (str u2) (view (invites_file w1)) = Reject MsgAlreadyUsed).
  { rewrite Hi1. simpl.
    destruct (decide_proceed_lookup _ _ _ _ Hdec) as (en & Hl & Hu & Hne).
    unfold decide.
    now rewrite (lookup_after_mark c (str u1) o en info _ Hwf Hl Hget). }
  split.
  - eapply reject_keeps_files; eauto.
  - intros Hd2 Hli Hls. apply reject_reply_first; auto.
    + unfold readable. simpl. now rewrite Hi1, Hli.
    + unfold readable. simpl. now rewrite Hs1, Hls.
Qed.

Lemma used_code_stays_used_witness :
  hd_error (replies (new_events
              (snd (on_submit calm 7 "UD-012345" world_A))
              (snd (on_submit calm 8 "UD-012345"
                      (snd (on_submit calm 7 "UD-012345" world_A))))))
    = Some MsgAlreadyUsed /\
  ledger_le ledger_A
    [("42"%string,
      [mk_entry "UD-012345" (Some "7"%string); mk_entry "UD-678901" None;
       mk_entry "UD-234567" None])].
Proof.
  destruct used_code_stays_used as [HA HB]. split.
  - apply (HA calm calm 7 8 "UD-012345"%string 1 world_A); try reflexivity.
    unfold dict_wf. simpl. repeat constructor. intros [].
  - apply (HB [mk_attempt calm 7 "UD-012345"; mk_attempt calm 8 "UD-012345"]
              world_A); reflexivity.
Defined.

(** ** Issuance *)

Lemma random_digits_run e n fi fs idata q rp tr :
  random_digits e n (mk_world fi fs idata q rp tr) =
  (Normal (digits_from e rp n), mk_world fi fs idata q (n + rp) tr).
Proof.
  revert rp. induction n as [|n IH]; intros rp; simpl; [reflexivity|].
  unfold bind, randint. rewrite IH. unfold ret, digit_at.
  repeat f_equal. lia.
Qed.

Lemma generate_invite_code_run e fi fs idata q rp tr :
  generate_invite_code e (mk_world fi fs idata q rp tr) =
  (Normal (code_at e rp), mk_world fi fs idata q (6 + rp) tr).
Proof.
  unfold generate_invite_code, bind. rewrite random_digits_run. reflexivity.
Qed.

Lemma generate_codes_run e acc fi fs idata q rp tr :
  generate_codes e NUM_GENERATED_CODES acc (mk_world fi fs idata q rp tr) =
  (Normal (acc ++ batch e rp), mk_world fi fs idata q (18 + rp) tr).
Proof.
  unfold NUM_GENERATED_CODES. simpl. unfold bind.
  rewrite !generate_invite_code_run. unfold ret, batch, batch_codes. simpl.
  rewrite <- !app_assoc. reflexivity.
Qed.

Lemma def_file (m : M unit) w :
  invites_file (snd (def_ m w)) = invites_file (snd (m w)).
Proof. unfold def_. now destruct (m w) as [[[]| |] w']. Qed.

Lemma bind_tail_file {A B : Type} (m : M A) (k : A -> M B) w a w1 :
  m w = (Normal a, w1) ->
  (forall w2, invites_file (snd (k a w2)) = invites_file w2) ->
  invites_file (snd (bind m k w)) = invites_file w1.
Proof. intros Hm Hk. unfold bind. rewrite Hm. apply Hk. Qed.

(** Building the dashboard reads the file and writes nothing. *)
Lemma dashboard_keeps_file e roles w :
  invites_file (snd ((dashboard_control_view e roles ;; send e MsgDashboard) w)) =
  invites_file w.
Proof.
  destruct w as [fi fs idata q rp tr].
  unfold dashboard_control_view, load_json, send, log, bind, ret, raise.
  destruct (has_generator_role roles); simpl.
  - destruct fi; simpl; try destruct (load_raises e INVITES_FILE); simpl;
      destruct (send_raises e MsgDashboard); reflexivity.
  - destruct (send_raises e MsgDashboard); reflexivity.
Qed.

(** A first request by an eligible user appends one batch to the ledger. *)
Lemma open_dashboard_button_generates e user_id w :
  eligible e user_id ->
  readable e INVITES w = true ->
  dict_get (str user_id) (view (invites_file w)) = None ->
  save_fault e INVITES_FILE = io_ok ->
  invites_file (snd (open_dashboard_button e user_id w)) =
  Stored (view (invites_file w) ++ [(str user_id, batch e (rand_pos w))]).
Proof.
  intros (roles & Hm & Hrole) Hr Hnone Hsave.
  destruct w as [fi fs idata q rp tr].
  unfold readable in Hr. simpl in *.
  unfold open_dashboard_button. rewrite def_file, Hm, Hrole.
  set (d' := view fi ++ [(str user_id, batch e rp)]).
  rewrite (bind_tail_file _ _ _ tt
             (mk_world (Stored d') fs d' q (18 + rp)
                       ((tr ++ [EvLoad INVITES_FILE]) ++ [EvSave INVITES_FILE])));
    [ | | intros w2; apply (dashboard_keeps_file e roles w2) ].
  2:{ subst d'. unfold load_json, set_invites_data, save_json, log.
      unfold bind at 1 2 3. cbn [h_get h_name INVITES invites_file].
      assert (Hv : (match fi with
                    | Absent => true
                    | Stored _ => negb (load_raises e INVITES_FILE)
                    | Garbled => false end) = true) by exact Hr.
      destruct fi as [|d|]; try discriminate;
        try (apply negb_true_iff in Hv; rewrite Hv);
        cbn [view] in Hnone; unfold dict_mem; rewrite Hnone; cbn [negb];
        unfold bind at 1; rewrite generate_codes_run;
        unfold bind, ret; cbn [h_name h_set INVITES set_invites_file app];
        rewrite Hsave, (keys_dict_set_absent _ _ _ Hnone); reflexivity. }
  reflexivity.
Qed.

(** A request by a user who already has codes writes nothing. *)
Lemma open_dashboard_button_keeps e user_id w l :
  dict_get (str user_id) (view (invites_file w)) = Some l ->
  invites_file (snd (open_dashboard_button e user_id w)) = invites_file w.
Proof.
  intros Hsome. destruct w as [fi fs idata q rp tr].
  unfold open_dashboard_button. rewrite def_file.
  destruct (get_member e user_id) as [roles|]; [|reflexivity].
  destruct (has_generator_role roles) eqn:Hrole.
  - destruct fi as [|d|]; simpl in Hsome; try discriminate.
    unfold load_json, set_invites_data, log.
    unfold bind at 1 2 3 4. cbn [h_get h_name INVITES invites_file].
    destruct (load_raises e INVITES_FILE); [reflexivity|].
    unfold dict_mem. rewrite Hsome. cbn [negb]. unfold ret.
    apply (dashboard_keeps_file e roles).
  - unfold bind at 1, ret. apply (dashboard_keeps_file e roles).
Qed.

Lemma dict_get_app_new {V : Type} (k : string) (v : V) (d : dict V) :
  dict_get k d = None -> dict_get k (d ++ [(k, v)]) = Some v.
Proof.
  induction d as [|[k' v'] d IH]; simpl.
  - now rewrite String.eqb_refl.
  - destruct (String.eqb k' k); [discriminate|auto].
Qed.


(** ** Uniqueness of codes *)

Lemma NoDup_app_iff {A : Type} (l1 l2 : list A) :
  NoDup (l1 ++ l2) <->
  NoDup l1 /\ NoDup l2 /\ (forall a, In a l2 -> ~ In a l1).
Proof.
  split.
  - intros H. split; [eapply NoDup_app_remove_r; eauto|].
    split; [eapply NoDup_app_remove_l; eauto|].
    induction l1 as [|x l1 IH]; simpl in *; [tauto|].
    apply NoDup_cons_iff in H. destruct H as [Hx Hn].
    intros a H2 [->|H1].
    + apply Hx. apply in_or_app. now right.
    + now apply (IH Hn a).
  - intros (H1 & H2 & H3). apply NoDup_app; auto.
    intros a Ha Hb. now apply (H3 a).
Qed.

Lemma all_codes_app d1 d2 : all_codes (d1 ++ d2) = all_codes d1 ++ all_codes d2.
Proof. unfold all_codes, entries. now rewrite flat_map_app, map_app. Qed.

Lemma all_codes_batch uid e p : all_codes [(uid, batch e p)] = batch_codes e p.
Proof. reflexivity. Qed.

(** C6, as the code has it: the batch is stored as drawn, so the ledger
    has distinct codes afterwards exactly when it had before, the three
    draws differ from each other, and none of them was in the ledger. *)
Theorem open_dashboard_button_uniqueness (e : env) (user_id : Z) (w : world) :
  let inv := view (invites_file w) in
  let w' := snd (open_dashboard_button e user_id w) in
  let drawn := batch_codes e (rand_pos w) in
  eligible e user_id -> readable e INVITES w = true ->
  dict_get (str user_id) inv = None -> save_fault e INVITES_FILE = io_ok ->
  (codes_unique (view (invites_file w')) <->
   codes_unique inv /\ NoDup drawn /\ (forall c, In c drawn -> ~ In c (all_codes inv))).
Proof.
  cbv zeta. intros He Hr Hnone Hsave.
  rewrite (open_dashboard_button_generates e user_id w He Hr Hnone Hsave).
  unfold codes_unique. simpl view.
  rewrite all_codes_app, all_codes_batch. apply NoDup_app_iff.
Qed.

Lemma open_dashboard_button_uniqueness_witness :
  codes_unique (view (invites_file (snd (open_dashboard_button calm 42 fresh_world)))).
Proof.
  apply (open_dashboard_button_uniqueness calm 42 fresh_world); try reflexivity.
  - exists [INVITE_GENERATOR_ROLE_ID]. split; reflexivity.
  - split; [constructor|]. split.
    + vm_compute. repeat constructor; simpl; intuition discriminate.
    + intros c _ [].
Defined.

(** A random source that keeps drawing the same value fills the batch
    with one code three times over. *)
Lemma open_dashboard_button_repeats_code :
  codes_unique (view (invites_file fresh_world)) /\
  ~ codes_unique
      (view (invites_file (snd (open_dashboard_button stuck_dice 42 fresh_world)))).
Proof.
  split; [constructor|].
  intros H. vm_compute in H. inversion H as [|x l Hx _]. apply Hx. now left.
Qed.

(** ** The shape of a batch *)

Lemma str_digit z :
  0 <= z <= 9 -> exists a, str z = String a EmptyString /\ is_digit a = true.
Proof.
  intros H.
  assert (Hz : z = 0 \/ z = 1 \/ z = 2 \/ z = 3 \/ z = 4 \/ z = 5 \/ z = 6 \/
               z = 7 \/ z = 8 \/ z = 9) by lia.
  repeat (destruct Hz as [->|Hz]); try subst z; eexists; split; reflexivity.
Qed.

Lemma digit_at_digit e p :
  exists a, digit_at e p = String a EmptyString /\ is_digit a = true.
Proof.
  apply str_digit.
  pose proof (Z.mod_pos_bound (rand_src e p) (9 - 0 + 1)). lia.
Qed.

Lemma digits_from_digits e p n :
  String.length (digits_from e p n) = n /\ all_digits (digits_from e p n) = true.
Proof.
  revert p. induction n as [|n IH]; intros p; simpl; [auto|].
  destruct (digit_at_digit e p) as (a & -> & Ha).
  destruct (IH (S p)) as [Hl Hd]. simpl. now rewrite Hl, Ha, Hd.
Qed.

Lemma code_at_well_formed e p : well_formed_code (code_at e p).
Proof.
  exists (digits_from e p 6). split; [reflexivity|]. apply digits_from_digits.
Qed.

(** C8: a first request by an eligible user stores exactly
    [NUM_GENERATED_CODES] unused codes of the form UD-dddddd under that
    user; a request by a user who has codes stores nothing. *)
Theorem open_dashboard_button_first_batch (e : env) (user_id : Z) (w : world) :
  let uid := str user_id in
  let inv := view (invites_file w) in
  let w' := snd (open_dashboard_button e user_id w) in
  (eligible e user_id -> readable e INVITES w = true ->
   dict_get uid inv = None -> save_fault e INVITES_FILE = io_ok ->
   exists l,
     invites_file w' = Stored (inv ++ [(uid, l)]) /\
     List.length l = NUM_GENERATED_CODES /\
     Forall (fun en => well_formed_code (code en) /\ used_by en = None) l /\
     forall e2,
       invites_file (snd (open_dashboard_button e2 user_id w')) = invites_file w') /\
  (forall l, dict_get uid inv = Some l -> invites_file w' = invites_file w).
Proof.
  cbv zeta. split.
  - intros He Hr Hnone Hsave.
    pose proof (open_dashboard_button_generates e user_id w He Hr Hnone Hsave) as Hw.
    exists (batch e (rand_pos w)). split; [exact Hw|]. split; [reflexivity|]. split.
    + unfold batch, batch_codes. simpl.
      repeat constructor; apply code_at_well_formed.
    + intros e2. apply (open_dashboard_button_keeps e2 user_id _ (batch e (rand_pos w))).
      rewrite Hw. simpl. now apply dict_get_app_new.
  - intros l Hl. eapply open_dashboard_button_keeps; eauto.
Qed.

Lemma open_dashboard_button_first_batch_witness :
  (exists l,
     invites_file (snd (open_dashboard_button calm 42 fresh_world)) =
       Stored ([] ++ [(str 42, l)]) /\
     List.length l = NUM_GENERATED_CODES) /\
  invites_file (snd (open_dashboard_button calm 42 world_A)) = invites_file world_A.
Proof.
  destruct (open_dashboard_button_first_batch calm 42 fresh_world) as [HA _].
  destruct (open_dashboard_button_first_batch calm 42 world_A) as [_ HB].
  split.
  - destruct HA as (l & H1 & H2 & _); try reflexivity.
    + exists [INVITE_GENERATOR_ROLE_ID]. split; reflexivity.
    + exists l. split; assumption.
  - apply (HB [mk_entry "UD-012345" None; mk_entry "UD-678901" None;
               mk_entry "UD-234567" None]). reflexivity.
Defined.

(** ** Role grants *)

Lemma grants_granted_cases e n :
  (In FIRST_INVITE_ROLE_ID (grants (granted e n)) <->
   n = 1 /\ get_role e FIRST_INVITE_ROLE_ID = true) /\
  (In SECOND_INVITE_ROLE_ID (grants (granted e n)) <->
   n = 2 /\ get_role e SECOND_INVITE_ROLE_ID = true) /\
  (n <> 1 -> n <> 2 -> grants (granted e n) = []) /\
  (List.length (grants (granted e n)) <= 1)%nat.
Proof.
  unfold granted, threshold_role.
  destruct (Z.eqb_spec n 1) as [->|H1]; [|destruct (Z.eqb_spec n 2) as [->|H2]].
  - destruct (get_role e FIRST_INVITE_ROLE_ID) eqn:E; simpl; repeat split;
      try tauto; try lia; try (intros [H|[]]; discriminate H);
      try (intros [H _]; discriminate H); intuition (try discriminate; try lia).
  - destruct (get_role e SECOND_INVITE_ROLE_ID) eqn:E; simpl; repeat split;
      try tauto; try lia; try (intros [H|[]]; discriminate H);
      try (intros [H _]; discriminate H); intuition (try discriminate; try lia).
  - simpl. repeat split; try tauto; try lia; intros [H _]; lia.
Qed.

Lemma redeemed_grants e u c n w :
  redeemed c n w (snd (on_submit e u c w)) ->
  grants (new_events w (snd (on_submit e u c w))) = grants (granted e n).
Proof.
  intros Hr. apply redeemed_inv in Hr.
  destruct Hr as (Hn & Hd & Hri & Hrs & o & info & G & Hdec & Hget & Hg & _ & _ & _ & Hw).
  rewrite Hw, new_events_step, grants_defer, !grants_app, grants_commit_head.
  rewrite (grant_ok_granted _ _ _ _ Hg). simpl. now rewrite app_nil_r.
Qed.

(** C7, as the code has it: a role is requested only when the count
    reaches its threshold and the guild has the role; at most one request
    per redemption, none on a rejection. *)
Theorem on_submit_grants (e : env) (user_id : Z) (c : string) (w : world) :
  let w' := snd (on_submit e user_id c w) in
  let evs := new_events w w' in
  (forall n, redeemed c n w w' ->
     (In FIRST_INVITE_ROLE_ID (grants evs) <->
      n = 1 /\ get_role e FIRST_INVITE_ROLE_ID = true) /\
     (In SECOND_INVITE_ROLE_ID (grants evs) <->
      n = 2 /\ get_role e SECOND_INVITE_ROLE_ID = true) /\
     (3 <= n -> grants evs = []) /\
     (List.length (grants evs) <= 1)%nat) /\
  (forall m, is_rejection m = true -> In (EvSend m) evs -> grants evs = []).
Proof.
  cbv zeta. split.
  - intros n Hr. rewrite (redeemed_grants _ _ _ _ _ Hr).
    destruct (grants_granted_cases e n) as (H1 & H2 & H3 & H4).
    repeat split; try apply H1; try apply H2; auto.
    intros Hn. apply H3; lia.
  - intros msg Hm Hin. revert Hin.
    outcomes e user_id c w; intros Hin.
    all: try solve [exfalso; no_send; simpl in Hm; try discriminate; try congruence].
    all: rewrite grants_defer, ?grants_app, ?grants_handler;
         unfold prologue; destruct (send_raises e m); reflexivity.
Qed.

Lemma on_submit_grants_witness :
  In FIRST_INVITE_ROLE_ID
     (grants (new_events world_A (snd (on_submit calm 7 "UD-012345" world_A)))) /\
  grants (new_events world_A (snd (on_submit calm 42 "UD-012345" world_A))) = [].
Proof.
  split.
  - apply (proj1 (on_submit_grants calm 7 "UD-012345" world_A) 1); [reflexivity|].
    split; reflexivity.
  - apply (proj2 (on_submit_grants calm 42 "UD-012345" world_A) MsgOwnCode).
    + reflexivity.
    + vm_compute. intuition.
Defined.

(** In a guild without the first-invite role a first redemption goes
    through and requests nothing. *)
Lemma on_submit_no_role_no_grant :
  redeemed "UD-012345" 1 world_A (snd (on_submit roleless 7 "UD-012345" world_A)) /\
  ~ grant_per_threshold 1
      (new_events world_A (snd (on_submit roleless 7 "UD-012345" world_A))).
Proof.
  split; [reflexivity|].
  intros (H1 & _). destruct (proj2 H1 eq_refl).
Qed.

(** ** What a redemption touches *)

(** C9: a redemption rewrites one entry of one owner's list and one
    count; everything else on disk is as it was. *)
Theorem on_submit_frame (e : env) (user_id : Z) (c : string) (n : Z) (w : world) :
  let inv := view (invites_file w) in
  let st := view (stats_file w) in
  let w' := snd (on_submit e user_id c w) in
  dict_wf inv ->
  redeemed c n w w' ->
  exists o info i inv' st',
    invites_file w' = Stored inv' /\ stats_file w' = Stored st' /\
    dict_get o inv = Some info /\
    nth_error info i = Some (mk_entry c None) /\
    keys inv' = keys inv /\
    dict_get o inv' =
      Some (firstn i info ++ mk_entry c (Some (str user_id)) :: skipn (S i) info) /\
    (forall o', o' <> o -> dict_get o' inv' = dict_get o' inv) /\
    dict_get (str user_id) st' = Some (dict_get_default (str user_id) 0 st + 1) /\
    (forall k, k <> str user_id -> dict_get k st' = dict_get k st).
Proof.
  cbv zeta. intros Hwf Hr. apply redeemed_inv in Hr.
  destruct Hr as (Hn & Hd & Hri & Hrs & o & info & G & Hdec & Hget & Hg & _ & _ & _ & Hw).
  destruct (proceed_wf _ _ _ _ _ Hwf Hdec Hget) as (en & Hf & Hu & _).
  destruct (mark_used_at c (str user_id) info en Hf) as (i & Hnth & Hcode & Hmark).
  assert (Hen : en = mk_entry c None) by (destruct en; simpl in *; congruence).
  subst en.
  exists o, info, i, (new_invites c (str user_id) o info (view (invites_file w))),
    (new_stats (str user_id) (view (stats_file w))).
  rewrite Hw, invites_file_step, stats_file_step.
  repeat split; auto.
  - now apply keys_new_invites.
  - unfold new_invites. now rewrite dict_get_set_same, Hmark.
  - intros o' Hne. unfold new_invites. now apply dict_get_set_other.
  - unfold new_stats, new_count. apply dict_get_set_same.
  - intros k Hne. unfold new_stats. now apply dict_get_set_other.
Qed.

Lemma on_submit_frame_witness :
  exists o info i inv' st',
    invites_file (snd (on_submit calm 7 "UD-678901" world_A)) = Stored inv' /\
    stats_file (snd (on_submit calm 7 "UD-678901" world_A)) = Stored st' /\
    dict_get o ledger_A = Some info /\
    nth_error info i = Some (mk_entry "UD-678901" None) /\
    dict_get o inv' =
      Some (firstn i info ++ mk_entry "UD-678901" (Some (str 7)) :: skipn (S i) info).
Proof.
  destruct (on_submit_frame calm 7 "UD-678901" 1 world_A)
    as (o & info & i & inv' & st' & H1 & H2 & H3 & H4 & _ & H6 & _).
  - unfold dict_wf. simpl. repeat constructor. intros [].
  - reflexivity.
  - exists o, info, i, inv', st'. auto.
Defined.

(** ** Counts *)

Lemma new_stats_positive uid st :
  all_positive st -> all_positive (new_stats uid st).
Proof.
  unfold all_positive, new_stats, new_count, dict_get_default.
  intros H k v. destruct (String.eqb_spec k uid) as [->|Hne].
  - rewrite dict_get_set_same. intros Hv. inversion Hv; subst.
    destruct (dict_get uid st) as [v0|] eqn:E; [|lia].
    specialize (H _ _ E). lia.
  - rewrite dict_get_set_other by auto. apply H.
Qed.

Lemma new_stats_grows uid st k v :
  dict_get k st = Some v ->
  exists v', dict_get k (new_stats uid st) = Some v' /\ v <= v'.
Proof.
  unfold new_stats, new_count, dict_get_default. intros H.
  destruct (String.eqb_spec k uid) as [->|Hne].
  - rewrite dict_get_set_same, H. eexists; split; [reflexivity|lia].
  - rewrite dict_get_set_other by auto. exists v. split; [auto|lia].
Qed.

Lemma all_positive_nil : all_positive [].
Proof. intros k v H. discriminate. Qed.

Lemma on_submit_positive e u c w :
  all_positive (view (stats_file w)) ->
  all_positive (view (stats_file (snd (on_submit e u c w)))).
Proof.
  intros H.
  outcomes e u c w; auto; simpl;
    auto using all_positive_nil, new_stats_positive.
Qed.

Lemma run_attempts_positive l w :
  all_positive (view (stats_file w)) ->
  all_positive (view (stats_file (run_attempts l w))).
Proof.
  revert w. induction l as [|a l IH]; simpl; auto.
  intros w H. apply IH. now apply on_submit_positive.
Qed.

Lemma counts_grow_step e u c w st' k v :
  stats_file (snd (on_submit e u c w)) = Stored st' ->
  dict_get k (view (stats_file w)) = Some v ->
  exists v', dict_get k st' = Some v' /\ v <= v'.
Proof.
  outcomes e u c w; intros Hs Hk.
  all: try (rewrite Hs in Hk; simpl in Hk; exists v; split; [auto|lia]).
  all: try discriminate.
  all: inversion Hs; subst; now apply new_stats_grows.
Qed.

(** C10, as the code has it: a missing count reads as 0, so a first
    redemption stores 1, and requests the first-invite role exactly when
    the guild has it; positive counts stay positive, so starting without
    a stats file every count on record is positive; and no attempt
    lowers a count. *)
Theorem on_submit_counts (e : env) (user_id : Z) (c : string) (w : world) :
  let uid := str user_id in
  let st := view (stats_file w) in
  let w' := snd (on_submit e user_id c w) in
  (forall n, redeemed c n w w' -> dict_get uid st = None ->
     n = 1 /\ dict_get uid (view (stats_file w')) = Some 1 /\
     (In FIRST_INVITE_ROLE_ID (grants (new_events w w')) <->
      get_role e FIRST_INVITE_ROLE_ID = true)) /\
  (all_positive st -> all_positive (view (stats_file w'))) /\
  (forall st' k v, stats_file w' = Stored st' -> dict_get k st = Some v ->
     exists v', dict_get k st' = Some v' /\ v <= v') /\
  (forall l, all_positive st -> all_positive (view (stats_file (run_attempts l w)))) /\
  (forall l, stats_file w = Absent ->
     all_positive (view (stats_file (run_attempts l w)))).
Proof.
  cbv zeta. split; [|split; [|split; [|split]]].
  - intros n Hr Hnone.
    pose proof (redeemed_grants _ _ _ _ _ Hr) as Hgr.
    apply redeemed_inv in Hr.
    destruct Hr as (Hn & Hd & Hri & Hrs & o & info & G & Hdec & Hget & Hg & _ & _ & _ & Hw).
    assert (Hn1 : n = 1)
      by (rewrite Hn; unfold new_count, dict_get_default; now rewrite Hnone).
    split; [exact Hn1|]. split.
    + rewrite Hw, stats_file_step. simpl. unfold new_stats.
      rewrite dict_get_set_same. now rewrite <- Hn, Hn1.
    + rewrite Hgr. destruct (grants_granted_cases e n) as (H1 & _).
      rewrite H1. tauto.
  - apply on_submit_positive.
  - intros st' k v. apply counts_grow_step.
  - intros l. apply run_attempts_positive.
  - intros l Hw. apply run_attempts_positive. rewrite Hw. apply all_positive_nil.
Qed.

Lemma on_submit_counts_witness :
  dict_get (str 7) (view (stats_file (snd (on_submit calm 7 "UD-234567" world_A))))
    = Some 1 /\
  all_positive (view (stats_file (snd (on_submit calm 7 "UD-234567" world_A)))).
Proof.
  destruct (on_submit_counts calm 7 "UD-234567" world_A) as (HA & HB & _).
  split.
  - apply (HA 1); reflexivity.
  - apply HB. apply all_positive_nil.
Defined.

(** In a guild without the first-invite role a user's first redemption
    stores the count 1 and requests no role. *)
Lemma on_submit_first_count_no_grant :
  redeemed "UD-234567" 1 world_A (snd (on_submit roleless 9 "UD-234567" world_A)) /\
  ~ first_redemption_grants 9 world_A (snd (on_submit roleless 9 "UD-234567" world_A)).
Proof.
  split; [reflexivity|].
  intros H. destruct (H eq_refl) as [_ []].
Qed.

(** ** Running [open_dashboard_button] *)

Lemma open_dashboard_button_run (e : env) (user_id : Z) (w : world) :
  dashboard_outcome e user_id w (snd (open_dashboard_button e user_id w)).
Proof.
  destruct w as [fi fs idata q rp tr].
  destruct (get_member e user_id) as [roles|] eqn:Hm.
  2:{ replace (snd (open_dashboard_button e user_id (mk_world fi fs idata q rp tr)))
        with (mk_world fi fs idata q rp tr).
      - now apply D_no_member.
      - unfold open_dashboard_button, def_. now rewrite Hm. }
  destruct (has_generator_role roles) eqn:Hr.
  2:{ eapply eq_ind; [eapply (D_not_eligible e user_id _ roles); eauto|].
      unfold open_dashboard_button, def_, dashboard_control_view, send, log, bind,
        ret, raise. rewrite Hm, Hr. simpl.
      destruct (send_raises e MsgDashboard); reflexivity. }
  destruct (readable e INVITES (mk_world fi fs idata q rp tr)) eqn:Hread.
  2:{ eapply eq_ind; [eapply (D_unreadable e user_id _ roles); eauto|].
      unfold readable in Hread. simpl in Hread.
      unfold open_dashboard_button, def_, load_json, log, bind. rewrite Hm, Hr. simpl.
      destruct fi; try discriminate; simpl.
      - apply negb_false_iff in Hread. now rewrite Hread.
      - reflexivity. }
  destruct (dict_get (str user_id) (view fi)) as [l|] eqn:Hg.
  - eapply eq_ind; [eapply (D_known e user_id _ roles l); eauto|].
    unfold readable in Hread. simpl in *.
    unfold open_dashboard_button, def_, dashboard_control_view, load_json,
      set_invites_data, send, log, bind, ret, raise. rewrite Hm, Hr. simpl.
    destruct fi as [|d|]; try discriminate; simpl in *.
    apply negb_true_iff in Hread. rewrite Hread. unfold dict_mem. rewrite Hg. simpl.
    rewrite <- !app_assoc.
    destruct (send_raises e MsgDashboard); reflexivity.
  - assert (Hblock :
      (d <- load_json e INVITES ;; set_invites_data d ;;
       (if negb (dict_mem (str user_id) d)
        then
          new_codes <- generate_codes e NUM_GENERATED_CODES [] ;;
          set_invites_data (dict_set (str user_id) new_codes d) ;;
          save_json e INVITES (dict_set (str user_id) new_codes d)
        else ret tt)) (mk_world fi fs idata q rp tr) =
      (let d' := view fi ++ [(str user_id, batch e rp)] in
       match save_fault e INVITES_FILE with
       | io_ok =>
           (Normal tt, mk_world (Stored d') fs d' q (18 + rp)
                         (tr ++ [EvLoad INVITES_FILE; EvSave INVITES_FILE]))
       | io_open_fails =>
           (Raised, mk_world fi fs d' q (18 + rp)
                      (tr ++ [EvLoad INVITES_FILE; EvSave INVITES_FILE]))
       | io_write_fails =>
           (Raised, mk_world Garbled fs d' q (18 + rp)
                      (tr ++ [EvLoad INVITES_FILE; EvSave INVITES_FILE]))
       end)).
    { unfold readable in Hread. simpl in Hread.
      unfold load_json, set_invites_data, save_json, log.
      unfold bind at 1 2 3. cbn [h_get h_name INVITES invites_file].
      destruct fi as [|d|]; try discriminate;
        try (apply negb_true_iff in Hread; rewrite Hread);
        cbn [view] in Hg; unfold dict_mem; rewrite Hg; cbn [negb];
        unfold bind at 1; rewrite generate_codes_run;
        unfold bind, ret; cbn [h_name h_set INVITES set_invites_file app view];
        rewrite (keys_dict_set_absent _ _ _ Hg), <- !app_assoc;
        destruct (save_fault e INVITES_FILE); reflexivity. }
    unfold open_dashboard_button, def_. rewrite Hm, Hr.
    unfold bind at 1. rewrite Hblock. cbv zeta.
    destruct (save_fault e INVITES_FILE) eqn:Hs.
    + eapply eq_ind; [eapply (D_generated e user_id _ roles); eauto|].
      cbv zeta.
      unfold dashboard_control_view, load_json, send, log, bind, ret, raise.
      rewrite Hr. simpl.
      destruct (load_raises e INVITES_FILE); simpl; rewrite <- ?app_assoc; simpl;
        try destruct (send_raises e MsgDashboard); reflexivity.
    + eapply eq_ind; [eapply (D_save_open e user_id _ roles); eauto|]. reflexivity.
    + eapply eq_ind; [eapply (D_save_write e user_id _ roles); eauto|]. reflexivity.
Qed.

(** ** The helpers on their own *)

(** X1: what is saved is what is loaded next; a write that fails before
    touching the file changes nothing for the next load, one that fails
    half-way makes the next load raise; a missing file loads as the empty
    dict; and writing one file never changes what the other loads. *)
Theorem save_json_then_load_json (e e' : env) (w : world) (inv : invites) (st : stats) :
  let wi := snd (save_json e INVITES inv w) in
  let ws := snd (save_json e STATS st w) in
  (save_fault e INVITES_FILE = io_ok -> load_raises e' INVITES_FILE = false ->
   fst (load_json e' INVITES wi) = Normal inv) /\
  (save_fault e STATS_FILE = io_ok -> load_raises e' STATS_FILE = false ->
   fst (load_json e' STATS ws) = Normal st) /\
  (save_fault e INVITES_FILE = io_write_fails -> fst (load_json e' INVITES wi) = Raised) /\
  (save_fault e STATS_FILE = io_write_fails -> fst (load_json e' STATS ws) = Raised) /\
  (save_fault e INVITES_FILE = io_open_fails ->
   fst (load_json e' INVITES wi) = fst (load_json e' INVITES w)) /\
  (save_fault e STATS_FILE = io_open_fails ->
   fst (load_json e' STATS ws) = fst (load_json e' STATS w)) /\
  fst (load_json e' STATS wi) = fst (load_json e' STATS w) /\
  fst (load_json e' INVITES ws) = fst (load_json e' INVITES w) /\
  (invites_file w = Absent -> fst (load_json e' INVITES w) = Normal []) /\
  (stats_file w = Absent -> fst (load_json e' STATS w) = Normal []).
Proof.
  destruct w as [fi fs idata q rp tr]. cbv zeta.
  unfold save_json, load_json, log, bind. simpl.
  repeat split.
  - intros -> ->. reflexivity.
  - intros -> ->. reflexivity.
  - intros ->. reflexivity.
  - intros ->. reflexivity.
  - intros ->. simpl. destruct fi; try destruct (load_raises e' INVITES_FILE); reflexivity.
  - intros ->. simpl. destruct fs; try destruct (load_raises e' STATS_FILE); reflexivity.
  - destruct (save_fault e INVITES_FILE); simpl;
      destruct fs; try destruct (load_raises e' STATS_FILE); reflexivity.
  - destruct (save_fault e STATS_FILE); simpl;
      destruct fi; try destruct (load_raises e' INVITES_FILE); reflexivity.
  - intros ->. reflexivity.
  - intros ->. reflexivity.
Qed.

Lemma save_json_then_load_json_witness :
  fst (load_json calm INVITES (snd (save_json calm INVITES ledger_A fresh_world)))
    = Normal ledger_A /\
  fst (load_json calm STATS (snd (save_json stats_locked STATS [] world_A)))
    = fst (load_json calm STATS world_A).
Proof.
  destruct (save_json_then_load_json calm calm fresh_world ledger_A [])
    as (H1 & _).
  destruct (save_json_then_load_json stats_locked calm world_A ledger_A [])
    as (_ & _ & _ & _ & _ & H6 & _).
  split; [apply H1 | apply H6]; reflexivity.
Defined.

Lemma string_length_append (s1 s2 : string) :
  String.length (String.append s1 s2) = (String.length s1 + String.length s2)%nat.
Proof. induction s1 as [|a s1 IH]; simpl; auto. Qed.

(** X2: whatever the random source draws, [generate_invite_code] returns
    without raising a code of nine characters, the prefix followed by
    six decimal digits; it consumes exactly six draws and touches
    nothing else. *)
Theorem generate_invite_code_shape (e : env) (w : world) :
  exists c,
    generate_invite_code e w =
      (Normal c,
       mk_world (invites_file w) (stats_file w) (invites_data w)
                (queue_position w) (6 + rand_pos w) (trace w)) /\
    well_formed_code c /\ String.length c = 9%nat.
Proof.
  destruct w as [fi fs idata q rp tr]. exists (code_at e rp).
  split; [apply generate_invite_code_run|].
  split; [apply code_at_well_formed|].
  unfold code_at. rewrite string_length_append.
  now rewrite (proj1 (digits_from_digits e rp 6)).
Qed.

(** ** The lock *)

Lemma lock_held_fold evs : lock_held evs = fold_left lock_after evs false.
Proof.
  unfold lock_held.
  assert (H : forall h,
    fold_left (fun held ev =>
                 match ev with
                 | EvAcquire => true
                 | EvRelease => false
                 | _ => held
                 end) evs h = fold_left lock_after evs h).
  { induction evs as [|ev evs IH]; intros h; simpl; auto. }
  apply H.
Qed.

Lemma locked_access_sound held evs :
  locked_access held evs = true ->
  forall pre ev post,
    evs = pre ++ ev :: post ->
    (touches_shared ev = true -> fold_left lock_after pre held = true) /\
    (ev = EvAcquire -> fold_left lock_after pre held = false) /\
    (ev = EvRelease -> fold_left lock_after pre held = true).
Proof.
  intros H pre. revert held evs H.
  induction pre as [|x pre IH]; intros held evs H ev post Heq; subst evs;
    simpl in H; apply andb_true_iff in H; destruct H as [Hx Hrest].
  - simpl. repeat split.
    + intros Ht. destruct ev; simpl in Ht; try discriminate; simpl in Hx; auto.
    + intros ->. simpl in Hx. now apply negb_true_iff in Hx.
    + intros ->. exact Hx.
  - simpl. eapply IH; eauto.
Qed.

Lemma locked_access_disciplined evs :
  locked_access false evs = true -> lock_disciplined evs.
Proof.
  intros H pre ev post Heq. rewrite lock_held_fold.
  eapply locked_access_sound; eauto.
Qed.

(** Decide the two lock facts on the events of one outcome. *)
Ltac lock_check :=
  unfold commit_head, prologue, handler_events;
  repeat match goal with
         | H : grant_ok _ _ _ _ |- _ => inversion H; subst; clear H
         | |- context [has_code ?c ?i] => destruct (has_code c i)
         | |- context [0 <? ?x] => destruct (0 <? x)
         end;
  split; reflexivity.

(** X3: in every attempt, whatever fails, the files are loaded and
    saved and the counter is changed only while [file_lock] is held; the
    lock is never taken twice and is free again when the attempt ends. *)
Theorem on_submit_lock_discipline (e : env) (user_id : Z) (c : string) (w : world) :
  let evs := new_events w (snd (on_submit e user_id c w)) in
  lock_disciplined evs /\ lock_held evs = false.
Proof.
  cbv zeta.
  assert (H : locked_access false (new_events w (snd (on_submit e user_id c w))) = true /\
              lock_held (new_events w (snd (on_submit e user_id c w))) = false).
  { outcomes e user_id c w; try (split; reflexivity); lock_check. }
  destruct H as [H1 H2]. split; [now apply locked_access_disciplined | exact H2].
Qed.

(** ** Issuance beyond the first batch *)

Lemma new_events_app w fi fs idata q rp evs :
  new_events w (mk_world fi fs idata q rp (trace w ++ evs)) = evs.
Proof.
  unfold new_events. simpl.
  induction (trace w) as [|x l IH]; simpl; auto.
Qed.

Lemma new_events_same w : new_events w w = [].
Proof.
  unfold new_events. induction (trace w) as [|x l IH]; simpl; auto.
Qed.

(** Split a call of [open_dashboard_button] into the ways it can end. *)
Ltac dashboard e u w :=
  let H := fresh "Hrun" in
  pose proof (open_dashboard_button_run e u w) as H;
  destruct H as [?Hm | ?roles ?Hm ?Hr | ?roles ?Hm ?Hr ?Hread
                | ?roles ?l ?Hm ?Hr ?Hread ?Hget
                | ?roles ?Hm ?Hr ?Hread ?Hget ?Hsave
                | ?roles ?Hm ?Hr ?Hread ?Hget ?Hsave
                | ?roles ?Hm ?Hr ?Hread ?Hget ?Hsave];
  cbv zeta; rewrite ?new_events_app, ?new_events_same; cbn [invites_file stats_file
    invites_data queue_position rand_pos trace].

(** X4: issuance works outside [file_lock]: whatever happens, it never
    acquires the lock, although it reads and may rewrite the invites
    file; and it never touches the stats file or the queue counter. *)
Theorem open_dashboard_button_unlocked (e : env) (user_id : Z) (w : world) :
  let w' := snd (open_dashboard_button e user_id w) in
  (forall ev, In ev (new_events w w') ->
     ev = EvLoad INVITES_FILE \/ ev = EvSave INVITES_FILE \/ ev = EvSend MsgDashboard) /\
  ~ In EvAcquire (new_events w w') /\
  stats_file w' = stats_file w /\
  queue_position w' = queue_position w.
Proof.
  cbv zeta.
  dashboard e user_id w; repeat split; auto;
    try destruct (load_raises e INVITES_FILE); simpl;
    intuition (subst; auto; try discriminate).
Qed.

(** X5: a caller the guild does not know makes the call raise before
    anything is read; a member without the generator role gets the
    dashboard message and nothing else happens: no file is read or
    written and no random number is drawn. *)
Theorem open_dashboard_button_not_eligible (e : env) (user_id : Z) (w : world) :
  (get_member e user_id = None -> open_dashboard_button e user_id w = (Raised, w)) /\
  (forall roles,
     get_member e user_id = Some roles -> has_generator_role roles = false ->
     snd (open_dashboard_button e user_id w) =
     mk_world (invites_file w) (stats_file w) (invites_data w)
              (queue_position w) (rand_pos w) (trace w ++ [EvSend MsgDashboard])).
Proof.
  split.
  - intros Hm. unfold open_dashboard_button, def_. now rewrite Hm.
  - intros roles Hm Hr.
    dashboard e user_id w; try congruence; try reflexivity.
Qed.

Lemma open_dashboard_button_not_eligible_witness :
  snd (open_dashboard_button
         (mk_env false (fun _ => false) (fun _ => io_ok) (fun _ => Some [])
                 (fun _ => true) (fun _ => false) (fun _ => false) (fun _ => 0))
         42 world_A) =
  mk_world (Stored ledger_A) Absent [] 0 0 [EvSend MsgDashboard].
Proof.
  apply (proj2 (open_dashboard_button_not_eligible
                  (mk_env false (fun _ => false) (fun _ => io_ok) (fun _ => Some [])
                          (fun _ => true) (fun _ => false) (fun _ => false)
                          (fun _ => 0)) 42 world_A) []); reflexivity.
Defined.

(** X6: when the write of a first batch fails, the user gets no
    dashboard message although eighteen draws were consumed; if the file
    could not be opened it is as before, the user still has no codes on
    disk and the next request will draw a new batch; if the write broke
    off half-way the invites file is left unreadable. *)
Theorem open_dashboard_button_write_fails (e : env) (user_id : Z) (w : world) :
  let w' := snd (open_dashboard_button e user_id w) in
  eligible e user_id -> readable e INVITES w = true ->
  dict_get (str user_id) (view (invites_file w)) = None ->
  save_fault e INVITES_FILE <> io_ok ->
  ~ In (EvSend MsgDashboard) (new_events w w') /\
  rand_pos w' = (18 + rand_pos w)%nat /\
  (save_fault e INVITES_FILE = io_open_fails ->
   invites_file w' = invites_file w /\
   dict_get (str user_id) (view (invites_file w')) = None) /\
  (save_fault e INVITES_FILE = io_write_fails -> invites_file w' = Garbled).
Proof.
  cbv zeta. intros (roles & Hm & Hr) Hread Hnone Hsave.
  dashboard e user_id w; try congruence.
  all: repeat split; auto; try congruence; simpl; intuition discriminate.
Qed.

Lemma open_dashboard_button_write_fails_witness :
  invites_file
    (snd (open_dashboard_button
            (mk_env false (fun _ => false) (fun _ => io_write_fails)
                    (fun _ => Some [INVITE_GENERATOR_ROLE_ID])
                    (fun _ => true) (fun _ => false) (fun _ => false) (fun _ => 0))
            7 world_A)) = Garbled.
Proof.
  apply (open_dashboard_button_write_fails
           (mk_env false (fun _ => false) (fun _ => io_write_fails)
                   (fun _ => Some [INVITE_GENERATOR_ROLE_ID])
                   (fun _ => true) (fun _ => false) (fun _ => false) (fun _ => 0))
           7 world_A); try reflexivity.
  - exists [INVITE_GENERATOR_ROLE_ID]. split; reflexivity.
  - discriminate.
Defined.

Lemma open_dashboard_button_garbled e u w :
  invites_file w = Garbled ->
  invites_file (snd (open_dashboard_button e u w)) = Garbled /\
  stats_file (snd (open_dashboard_button e u w)) = stats_file w.
Proof.
  intros Hw.
  assert (Hr : readable e INVITES w = false) by (unfold readable; simpl; now rewrite Hw).
  dashboard e u w; auto; congruence.
Qed.

Lemma on_submit_garbled e u c w :
  invites_file w = Garbled ->
  invites_file (snd (on_submit e u c w)) = Garbled /\
  stats_file (snd (on_submit e u c w)) = stats_file w /\
  (defer_raises e = false ->
   replies (new_events w (snd (on_submit e u c w))) = [MsgError]).
Proof.
  intros Hw.
  assert (Hr : readable e INVITES w = false) by (unfold readable; simpl; now rewrite Hw).
  outcomes e u c w; try congruence; repeat split; auto; try congruence.
  intros _. rewrite replies_defer, replies_app, replies_handler. reflexivity.
Qed.

(** X7: an unreadable invites file freezes the ledger: every redemption
    attempt from then on ends in the error message, and no sequence of
    redemptions and dashboard requests changes either file again. *)
Theorem garbled_ledger_is_frozen (w : world) :
  invites_file w = Garbled ->
  (forall e user_id c,
     defer_raises e = false ->
     replies (new_events w (snd (on_submit e user_id c w))) = [MsgError]) /\
  (forall ops,
     invites_file (run_operations ops w) = Garbled /\
     stats_file (run_operations ops w) = stats_file w).
Proof.
  intros Hw. split.
  - intros e u c Hd. now apply on_submit_garbled.
  - intros ops. revert w Hw. induction ops as [|op ops IH]; intros w Hw; simpl; auto.
    destruct op as [e u c | e u]; simpl.
    + destruct (on_submit_garbled e u c w Hw) as (Hi & Hs & _).
      destruct (IH _ Hi) as [H1 H2]. split; congruence.
    + destruct (open_dashboard_button_garbled e u w Hw) as (Hi & Hs).
      destruct (IH _ Hi) as [H1 H2]. split; congruence.
Qed.

Lemma garbled_ledger_is_frozen_witness :
  invites_file
    (run_operations [Redeem calm 7 "UD-012345"; OpenDashboard calm 8]
       (mk_world Garbled Absent [] 0 0 [])) = Garbled.
Proof.
  apply (proj2 (garbled_ledger_is_frozen (mk_world Garbled Absent [] 0 0 []) eq_refl)
           [Redeem calm 7 "UD-012345"; OpenDashboard calm 8]).
Defined.

(** ** More on a redemption attempt *)

(** X8: an attempt whose [defer] fails does nothing else; any other
    attempt takes the ticket one above the counter, releases the lock,
    sleeps exactly that many seconds and only then takes the lock again
    and reads the invites file. *)
Theorem on_submit_ticket_and_sleep (e : env) (user_id : Z) (c : string) (w : world) :
  let evs := new_events w (snd (on_submit e user_id c w)) in
  let q := queue_position w in
  (defer_raises e = true -> evs = [EvDefer]) /\
  (defer_raises e = false ->
   exists rest,
     evs = [EvDefer; EvAcquire; EvEnter (q + 1); EvRelease; EvSleep (q + 1);
            EvAcquire; EvLoad INVITES_FILE] ++ rest).
Proof.
  cbv zeta. outcomes e user_id c w; split; intros Hd; try congruence; auto.
  all: unfold commit_head, prologue; simpl; eexists; reflexivity.
Qed.

Lemma on_submit_ticket_and_sleep_witness :
  exists rest,
    new_events world_A_busy (snd (on_submit calm 7 "UD-012345" world_A_busy)) =
    [EvDefer; EvAcquire; EvEnter 2; EvRelease; EvSleep 2; EvAcquire;
     EvLoad INVITES_FILE] ++ rest.
Proof.
  apply (proj2 (on_submit_ticket_and_sleep calm 7 "UD-012345" world_A_busy)).
  reflexivity.
Defined.

Lemma on_submit_counter_step e u c w :
  0 <= queue_position w ->
  0 <= queue_position (snd (on_submit e u c w)) <= queue_position w.
Proof.
  intros Hq.
  outcomes e u c w; try lia.
  all: try (destruct (0 <? queue_position w + 1) eqn:E;
            [lia | apply Z.ltb_ge in E; lia]).
  all: destruct (0 <? queue_position w) eqn:E;
       [apply Z.ltb_lt in E; lia | lia].
Qed.

(** X9: with attempts running one after the other, a counter that is
    not negative never becomes negative and never ends above where it
    started, whatever fails. *)
Theorem run_attempts_counter_bounds (l : list attempt) (w : world) :
  0 <= queue_position w ->
  0 <= queue_position (run_attempts l w) <= queue_position w.
Proof.
  revert w. induction l as [|a l IH]; simpl; intros w Hq; [lia|].
  pose proof (on_submit_counter_step (a_env a) (a_user a) (a_code a) w Hq) as H1.
  specialize (IH _ (proj1 H1)). lia.
Qed.

Lemma run_attempts_counter_bounds_witness :
  0 <= queue_position
         (run_attempts [mk_attempt mute 7 "UD-999999"; mk_attempt calm 7 "UD-012345"]
            world_A_busy) <= 1.
Proof.
  apply (run_attempts_counter_bounds
           [mk_attempt mute 7 "UD-999999"; mk_attempt calm 7 "UD-012345"]
           world_A_busy).
  simpl. lia.
Defined.

(** The result of a whole call, next to the state it leaves. *)
Lemma on_submit_result (e : env) (user_id : Z) (c : string) (w : world) :
  defer_raises e = false ->
  exists r w1,
    try_outcome e user_id c (deferred w) r w1 /\
    on_submit e user_id c w =
      match r with
      | Raised => (if send_raises e MsgError then Raised else Normal tt, handled w1)
      | _ => (Normal tt, w1)
      end.
Proof.
  intros Ed.
  pose proof (on_submit_try_outcome e user_id c (deferred w)) as H.
  pose proof (on_submit_except_run e (snd (on_submit_try e user_id c (deferred w)))) as Hx.
  assert (Hd : log EvDefer w = (Normal tt, deferred w)) by (destruct w; reflexivity).
  assert (Hf : forall w0, fst (on_submit_except e w0) =
                          if send_raises e MsgError then Raised else Normal tt).
  { intros [fi fs idata q rp tr].
    unfold on_submit_except, with_lock, leave_queue, send,
      get_queue_position, set_queue_position, log, bind, ret, raise.
    red_world.
    destruct (0 <? q); destruct (send_raises e MsgError); reflexivity. }
  exists (fst (on_submit_try e user_id c (deferred w))),
         (snd (on_submit_try e user_id c (deferred w))).
  split; [exact H|].
  unfold on_submit, def_, defer, try_except, bind, ret, raise.
  rewrite Hd, Ed.
  destruct (on_submit_try e user_id c (deferred w)) as [r w1].
  cbn [fst snd] in *. destruct r as [[]| |]; try reflexivity.
  specialize (Hf w1).
  destruct (on_submit_except e w1) as [r2 w2]. cbn [fst snd] in *. subst.
  now destruct (send_raises e MsgError).
Qed.

(** X10: an attempt that gets past [defer] tries to send one message, or
    two when the first one could not be sent, the second being the error
    message.  The user receives at most one of them, and exactly one
    whenever the error message can be sent; when nothing is received the
    error message could not be sent and [on_submit] itself raises. *)
Theorem on_submit_answers_at_most_once (e : env) (user_id : Z) (c : string)
    (w : world) :
  defer_raises e = false ->
  let sent := replies (new_events w (snd (on_submit e user_id c w))) in
  let got := delivered e sent in
  (exists m,
     (sent = [m] /\ (m = MsgError \/ send_raises e m = false)) \/
     (sent = [m; MsgError] /\ send_raises e m = true)) /\
  (got = [] \/ exists m, got = [m]) /\
  (send_raises e MsgError = false -> exists m, got = [m]) /\
  (got = [] ->
   send_raises e MsgError = true /\ fst (on_submit e user_id c w) = Raised).
Proof.
  intros Hd. cbv zeta.
  destruct (on_submit_result e user_id c w Hd) as (r & w1 & Ht & Heq).
  rewrite Heq. clear Heq.
  destruct (send_raises e MsgError) eqn:Serr.
  all: inversion Ht; subst; clear Ht; cbn [fst snd]; autorewrite with world in *.
  all: rewrite replies_defer, ?replies_app, ?replies_commit_head, ?replies_handler;
       repeat match goal with
              | H : grant_ok _ _ _ ?G |- context [replies ?G] =>
                  rewrite (replies_grant_ok _ _ _ _ H)
              end;
       unfold prologue, delivered; cbn [replies flat_map app filter];
       repeat match goal with
              | H : send_raises _ ?m = _ |- _ => rewrite H
              end;
       cbn [negb filter].
  all: split;
    [ first [ solve [exists MsgError; left; split; auto]
            | solve [eexists; right; split; [reflexivity|assumption]]
            | solve [eexists; left; split; [reflexivity|right; assumption]] ] |].
  all: split; [ first [ now left | right; eexists; reflexivity ] |].
  all: split; [ intros Hs; first [ discriminate Hs | eexists; reflexivity ]
              | intros Hg; first [ discriminate Hg | split; reflexivity ] ].
Qed.

Lemma on_submit_answers_at_most_once_witness :
  delivered mute
    (replies (new_events world_A (snd (on_submit mute 7 "UD-999999" world_A)))) = [] /\
  fst (on_submit mute 7 "UD-999999" world_A) = Raised /\
  exists m,
    delivered calm
      (replies (new_events world_A (snd (on_submit calm 7 "UD-999999" world_A)))) = [m].
Proof.
  pose proof (on_submit_answers_at_most_once mute 7 "UD-999999" world_A eq_refl)
    as (_ & _ & _ & H).
  pose proof (on_submit_answers_at_most_once calm 7 "UD-999999" world_A eq_refl)
    as (_ & _ & H' & _).
  split; [reflexivity|]. split.
  - apply H. reflexivity.
  - apply H'. reflexivity.
Defined.

(** X11: the count a success message tells the user is the count now on
    disk for them, one above the count they had. *)
Theorem redeemed_reports_stored_count (e : env) (user_id : Z) (c : string) (n : Z)
    (w : world) :
  redeemed c n w (snd (on_submit e user_id c w)) ->
  exists st',
    stats_file (snd (on_submit e user_id c w)) = Stored st' /\
    dict_get (str user_id) st' = Some n /\
    n = dict_get_default (str user_id) 0 (view (stats_file w)) + 1.
Proof.
  intros Hr. apply redeemed_inv in Hr.
  destruct Hr as (Hn & _ & _ & _ & o & info & G & _ & _ & _ & _ & _ & _ & Hw).
  exists (new_stats (str user_id) (view (stats_file w))).
  rewrite Hw, stats_file_step. split; [reflexivity|]. split.
  - unfold new_stats. rewrite dict_get_set_same. now rewrite Hn.
  - exact Hn.
Qed.

Lemma redeemed_reports_stored_count_witness :
  exists st',
    stats_file (snd (on_submit calm 7 "UD-012345" world_A)) = Stored st' /\
    dict_get (str 7) st' = Some 1.
Proof.
  destruct (redeemed_reports_stored_count calm 7 "UD-012345" 1 world_A eq_refl)
    as (st' & H1 & H2 & _).
  exists st'. auto.
Defined.

(** ** The dashboard views *)

Lemma unused_count_bounds l : 0 <= unused_count l <= Z.of_nat (List.length l).
Proof.
  induction l as [|a l IH]; cbn [unused_count List.length]; [lia|].
  rewrite Nat2Z.inj_succ. destruct (used_by a); lia.
Qed.




(** X13: [DashboardControlView]: without the generator role the view
    has the one button and no file is read; with it, the view reads the
    invites file, raising when that is unreadable, and labels the second
    button with the member's number of unused invites, which is 0 for a
    member without a list and never more than the length of the list.
    Either way nothing but the log of events changes. *)
Theorem DashboardControlView_label (e : env) (member_id : Z) (roles : list Z) (w : world) :
  (has_generator_role roles = false ->
   DashboardControlView e member_id roles w = (Normal [EnterInviteButton], w)) /\
  (has_generator_role roles = true -> readable e INVITES w = false ->
   fst (DashboardControlView e member_id roles w) = Raised) /\
  (has_generator_role roles = true -> readable e INVITES w = true ->
   exists k,
     fst (DashboardControlView e member_id roles w) =
       Normal [EnterInviteButton;
               InvitesButton (String.append "Invites(" (String.append (str k) ")"))] /\
     k = unused_count (dict_get_default (str member_id) [] (view (invites_file w))) /\
     0 <= k <=
       Z.of_nat (List.length (dict_get_default (str member_id) []
                                (view (invites_file w)))) /\
     (dict_get (str member_id) (view (invites_file w)) = None -> k = 0)) /\
  snd (DashboardControlView e member_id roles w) =
    snd (dashboard_control_view e roles w).
Proof.
  destruct w as [fi fs idata q rp tr].
  unfold DashboardControlView, dashboard_control_view, readable, load_json, log, bind, ret.
  simpl. repeat split.
  - now intros ->.
  - intros -> Hr. destruct fi; try discriminate; simpl; auto.
    apply negb_false_iff in Hr. now rewrite Hr.
  - intros -> Hr.
    exists (unused_count (dict_get_default (str member_id) [] (view fi))).
    split; [|split; [reflexivity|split; [apply unused_count_bounds|]]].
    + destruct fi; try discriminate; simpl; auto.
      apply negb_true_iff in Hr. now rewrite Hr.
    + intros Hnone. unfold dict_get_default, invite_info in *. now rewrite Hnone.
  - destruct (has_generator_role roles); auto.
    destruct fi; simpl; auto. destruct (load_raises e INVITES_FILE); reflexivity.
Qed.

Lemma DashboardControlView_label_witness :
  exists k,
    fst (DashboardControlView calm 42 [INVITE_GENERATOR_ROLE_ID]
           (snd (on_submit calm 7 "UD-012345" world_A))) =
      Normal [EnterInviteButton;
              InvitesButton (String.append "Invites(" (String.append (str k) ")"))] /\
    k = 2.
Proof.
  destruct (DashboardControlView_label calm 42 [INVITE_GENERATOR_ROLE_ID]
              (snd (on_submit calm 7 "UD-012345" world_A))) as (_ & _ & H & _).
  destruct (H eq_refl eq_refl) as (k & H1 & H2 & _).
  exists k. split; [exact H1|]. rewrite H2. reflexivity.
Defined.

Lemma mark_used_length c uid info :
  List.length (mark_used c uid info) = List.length info.
Proof.
  induction info as [|a l IH]; simpl; auto.
  destruct (String.eqb (code a) c); simpl; auto.
Qed.

Lemma concat_head sep a s rest :
  exists s', String.concat sep (String a s :: rest) = String a s'.
Proof.
  destruct rest as [|x rest]; simpl; eexists; reflexivity.
Qed.

Lemma callback_lines_head l :
  exists a s rest,
    callback_lines l = String a s :: rest /\
    (a = "Y"%char \/ a = "`"%char).
Proof.
  destruct l as [|en l]; simpl.
  - do 3 eexists. split; [reflexivity|]. now left.
  - unfold invite_line. destruct (used_by en); simpl;
      do 3 eexists; (split; [reflexivity|]); now right.
Qed.

Lemma callback_msg_lines l :
  callback_msg (callback_lines l) = String.concat newline (callback_lines l) /\
  callback_msg (callback_lines l) <> "No invites to display."%string.
Proof.
  destruct (callback_lines_head l) as (a & s & rest & Hl & Ha).
  rewrite Hl. unfold callback_msg. split; [reflexivity|].
  destruct (concat_head newline a s rest) as (s' & ->).
  destruct Ha as [-> | ->]; discriminate.
Qed.

Lemma callback_readable e user_id w :
  readable e INVITES w = true ->
  fst (callback e user_id w) =
  Normal (callback_msg (callback_lines
            (dict_get_default (str user_id) [] (view (invites_file w))))).
Proof.
  destruct w as [fi fs idata q rp tr].
  unfold callback, readable, load_json, log, bind, ret. simpl.
  intros Hr. destruct fi; try discriminate; simpl; auto.
  apply negb_true_iff in Hr. now rewrite Hr.
Qed.

(** X14: [InvitesButton.callback] raises when the invites file is
    unreadable; otherwise it hands over one line per invite of the
    caller, joined by newlines, or the sentence "You have no invites
    stored." when the caller has no list or an empty one.  The fallback
    "No invites to display." is never what it hands over, and it changes
    nothing but the log of events. *)
Theorem callback_content (e : env) (user_id : Z) (w : world) :
  let l := dict_get_default (str user_id) [] (view (invites_file w)) in
  (readable e INVITES w = false -> fst (callback e user_id w) = Raised) /\
  (readable e INVITES w = true ->
   exists msg,
     fst (callback e user_id w) = Normal msg /\
     (l = [] -> msg = "You have no invites stored."%string) /\
     (l <> [] -> msg = String.concat newline (map invite_line l)) /\
     msg <> "No invites to display."%string) /\
  snd (callback e user_id w) = snd (log (EvLoad INVITES_FILE) w).
Proof.
  cbv zeta. destruct w as [fi fs idata q rp tr].
  unfold callback, readable, load_json, log, bind, ret. simpl.
  repeat split.
  - intros Hr. destruct fi; try discriminate; simpl; auto.
    apply negb_false_iff in Hr. now rewrite Hr.
  - intros Hr.
    exists (callback_msg (callback_lines
              (dict_get_default (str user_id) [] (view fi)))).
    split; [|split; [|split]].
    + destruct fi; try discriminate; simpl; auto.
      apply negb_true_iff in Hr. now rewrite Hr.
    + intros ->. reflexivity.
    + intros Hne. rewrite (proj1 (callback_msg_lines _)).
      destruct (dict_get_default (str user_id) [] (view fi)); [congruence|reflexivity].
    + apply callback_msg_lines.
  - destruct fi; simpl; auto. destruct (load_raises e INVITES_FILE); reflexivity.
Qed.

Lemma callback_content_witness :
  exists msg,
    fst (callback calm 7 world_A) = Normal msg /\
    msg = "You have no invites stored."%string.
Proof.
  destruct (callback_content calm 7 world_A) as (_ & H & _).
  destruct (H eq_refl) as (msg & H1 & H2 & _).
  exists msg. split; [exact H1|]. apply H2. reflexivity.
Defined.

(** X15: once a user has redeemed a code, the list shown to the owner
    of that code, the user under whose key the lookup finds it, names
    the redeemer on the code's line; the list has as many lines as the
    owner has invites. *)
Theorem callback_after_redemption (e e' : env) (user_id owner_id : Z) (c : string)
    (n : Z) (en : code_entry) (w : world) :
  let inv := view (invites_file w) in
  let w' := snd (on_submit e user_id c w) in
  dict_wf inv ->
  lookup_code c inv = Some (str owner_id, en) ->
  redeemed c n w w' ->
  load_raises e' INVITES_FILE = false ->
  exists lines,
    fst (callback e' owner_id w') = Normal (String.concat newline lines) /\
    In (invite_line (mk_entry c (Some (str user_id)))) lines /\
    List.length lines = List.length (dict_get_default (str owner_id) [] inv).
Proof.
  cbv zeta. intros Hwf Hlook Hr Hl. apply redeemed_inv in Hr.
  destruct Hr as (Hn & Hd & Hri & Hrs & o & info & G & Hdec & Hget & Hg & _ & _ & _ & Hw).
  destruct (decide_proceed_lookup _ _ _ _ Hdec) as (en0 & Hl0 & _ & _).
  rewrite Hlook in Hl0. inversion Hl0; subst o en0. clear Hl0.
  destruct (proceed_wf _ _ _ _ _ Hwf Hdec Hget) as (en1 & Hf & Hu & Hne).
  destruct (mark_used_at c (str user_id) info en1 Hf) as (i & Hnth & Hcode & Hmark).
  rewrite Hw. set (w' := step_world _ _ _ _ _).
  assert (Hi : invites_file w' =
               Stored (new_invites c (str user_id) (str owner_id) info
                         (view (invites_file w))))
    by (unfold w'; now rewrite invites_file_step).
  rewrite callback_readable
    by (unfold readable; cbn [h_get INVITES h_name]; now rewrite Hi, Hl).
  rewrite Hi. cbn [view]. unfold new_invites, dict_get_default.
  unfold invite_info in *. rewrite dict_get_set_same, Hget.
  exists (map invite_line (mark_used c (str user_id) info)). split; [|split].
  - rewrite (proj1 (callback_msg_lines _)).
    rewrite Hmark. unfold callback_lines. now destruct (firstn i info).
  - apply in_map. rewrite Hmark. apply in_or_app. right. now left.
  - now rewrite length_map, mark_used_length.
Qed.

Lemma callback_after_redemption_witness :
  exists lines,
    fst (callback calm 42 (snd (on_submit calm 7 "UD-012345" world_A))) =
      Normal (String.concat newline lines) /\
    In "`UD-012345` used by <@7>"%string lines /\
    List.length lines = 3%nat.
Proof.
  apply (callback_after_redemption calm calm 7 42 "UD-012345" 1
           (mk_entry "UD-012345" None) world_A).
  - unfold dict_wf. simpl. repeat constructor. intros [].
  - reflexivity.
  - reflexivity.
  - reflexivity.
Defined.

(** ** What every ledger the program builds looks like *)

Lemma dict_get_in {V : Type} (k : string) (v : V) (d : dict V) :
  dict_get k d = Some v -> In (k, v) d.
Proof.
  induction d as [|[k' v'] d IH]; simpl; [discriminate|].
  destruct (String.eqb_spec k' k) as [->|Hk]; intros H.
  - left. congruence.
  - right. auto.
Qed.

Lemma in_dict_set {V : Type} (k k' : string) (v v' : V) (d : dict V) :
  In (k', v') (dict_set k v d) -> (k' = k /\ v' = v) \/ In (k', v') d.
Proof.
  induction d as [|[k0 v0] d IH]; simpl.
  - intros [H|[]]. inversion H. auto.
  - destruct (String.eqb_spec k0 k) as [->|Hk]; simpl.
    + intros [H|H]; [inversion H; auto|auto].
    + intros [H|H]; [auto|]. destruct (IH H); auto.
Qed.

Lemma in_mark_used c uid info en :
  In en (mark_used c uid info) ->
  In en info \/ (used_by en = Some uid /\ exists en0, In en0 info /\ code en0 = code en).
Proof.
  induction info as [|a l IH]; simpl; [tauto|].
  destruct (String.eqb (code a) c); simpl.
  - intros [H|H]; [|auto]. right. subst en. simpl. split; eauto.
  - intros [H|H]; [auto|]. destruct (IH H) as [H1|(H1 & en0 & H2 & H3)]; eauto 6.
Qed.

Lemma dict_wf_app_new {V : Type} (k : string) (v : V) (d : dict V) :
  dict_wf d -> dict_get k d = None -> dict_wf (d ++ [(k, v)]).
Proof.
  unfold dict_wf, keys. intros Hwf Hnone. rewrite map_app. simpl.
  apply NoDup_app; auto.
  - repeat constructor. intros [].
  - intros a Ha [<-|[]]. now apply dict_get_None_keys in Hnone.
Qed.

Lemma on_submit_keeps_wf e u c w :
  dict_wf (view (invites_file w)) ->
  dict_wf (view (invites_file (snd (on_submit e u c w)))).
Proof.
  intros Hwf.
  outcomes e u c w; auto; cbn [view]; try (now constructor).
  all: unfold dict_wf; erewrite keys_new_invites; eauto.
Qed.

Lemma open_dashboard_button_keeps_wf e u w :
  dict_wf (view (invites_file w)) ->
  dict_wf (view (invites_file (snd (open_dashboard_button e u w)))).
Proof.
  intros Hwf.
  dashboard e u w; auto; cbn [view]; try (now constructor).
  now apply dict_wf_app_new.
Qed.

(** X16: the owner keys of the invites file stay distinct under every
    redemption and every dashboard request, whatever fails; so they are
    distinct in every state reached from a missing file. *)
Theorem run_operations_keeps_wf (ops : list operation) (w : world) :
  (dict_wf (view (invites_file w)) ->
   dict_wf (view (invites_file (run_operations ops w)))) /\
  (invites_file w = Absent ->
   dict_wf (view (invites_file (run_operations ops w)))).
Proof.
  assert (H : forall w0, dict_wf (view (invites_file w0)) ->
                         dict_wf (view (invites_file (run_operations ops w0)))).
  { induction ops as [|op ops IH]; intros w0 Hwf; simpl; auto.
    apply IH. destruct op; simpl.
    - now apply on_submit_keeps_wf.
    - now apply open_dashboard_button_keeps_wf. }
  split; [apply H|]. intros Hw. apply H. rewrite Hw. constructor.
Qed.

Lemma run_operations_keeps_wf_witness :
  dict_wf (view (invites_file
                   (run_operations [OpenDashboard calm 42; Redeem calm 7 "UD-012345";
                                    OpenDashboard calm 7] fresh_world))).
Proof.
  apply (proj2 (run_operations_keeps_wf
                  [OpenDashboard calm 42; Redeem calm 7 "UD-012345";
                   OpenDashboard calm 7] fresh_world)).
  reflexivity.
Defined.

Lemma new_invites_sound c uid o info inv :
  ledger_sound inv -> uid <> o -> dict_get o inv = Some info ->
  ledger_sound (new_invites c uid o info inv).
Proof.
  unfold ledger_sound, new_invites. intros Hs Hne Hget o' l' Hin.
  apply in_dict_set in Hin. destruct Hin as [[-> ->] | Hin]; [|auto].
  apply dict_get_in in Hget. destruct (Hs _ _ Hget) as [Hlen Hen].
  split; [now rewrite mark_used_length|].
  intros en Hin. apply in_mark_used in Hin.
  destruct Hin as [Hin | (Hu & en0 & Hin0 & Hc)]; [auto|].
  split.
  - rewrite <- Hc. apply (Hen en0 Hin0).
  - rewrite Hu. congruence.
Qed.

Lemma batch_sound uid e p inv :
  ledger_sound inv -> ledger_sound (inv ++ [(uid, batch e p)]).
Proof.
  unfold ledger_sound. intros Hs o l Hin.
  apply in_app_or in Hin. destruct Hin as [Hin | [Hin | []]]; [auto|].
  inversion Hin; subst. split; [reflexivity|].
  intros en Hen. unfold batch, batch_codes in Hen. simpl in Hen.
  destruct Hen as [<-|[<-|[<-|[]]]]; simpl;
    (split; [apply code_at_well_formed | discriminate]).
Qed.

Lemma ledger_sound_nil : ledger_sound [].
Proof. intros o l []. Qed.

Lemma on_submit_keeps_sound e u c w :
  ledger_sound (view (invites_file w)) ->
  ledger_sound (view (invites_file (snd (on_submit e u c w)))).
Proof.
  intros Hs.
  outcomes e u c w; auto; cbn [view]; try apply ledger_sound_nil.
  all: match goal with
       | H : decide _ _ _ = Proceed _ |- _ =>
           destruct (decide_proceed_lookup _ _ _ _ H) as (en & _ & _ & Hne)
       end; now apply new_invites_sound.
Qed.

Lemma open_dashboard_button_keeps_sound e u w :
  ledger_sound (view (invites_file w)) ->
  ledger_sound (view (invites_file (snd (open_dashboard_button e u w)))).
Proof.
  intros Hs.
  dashboard e u w; auto; cbn [view]; try apply ledger_sound_nil.
  now apply batch_sound.
Qed.

(** X17: in every state reached from a missing invites file by
    redemptions and dashboard requests, whatever fails, each owner on
    file has exactly three codes, each code is UD- followed by six
    digits, and no code is recorded as redeemed by its own owner. *)
Theorem run_operations_keeps_sound (ops : list operation) (w : world) :
  (ledger_sound (view (invites_file w)) ->
   ledger_sound (view (invites_file (run_operations ops w)))) /\
  (invites_file w = Absent ->
   ledger_sound (view (invites_file (run_operations ops w)))).
Proof.
  assert (H : forall w0, ledger_sound (view (invites_file w0)) ->
                         ledger_sound (view (invites_file (run_operations ops w0)))).
  { induction ops as [|op ops IH]; intros w0 Hs; simpl; auto.
    apply IH. destruct op; simpl.
    - now apply on_submit_keeps_sound.
    - now apply open_dashboard_button_keeps_sound. }
  split; [apply H|]. intros Hw. apply H. rewrite Hw. apply ledger_sound_nil.
Qed.

Lemma run_operations_keeps_sound_witness :
  ledger_sound (view (invites_file
                        (run_operations [OpenDashboard calm 42;
                                         Redeem calm 7 "UD-012345"] fresh_world))).
Proof.
  apply (proj2 (run_operations_keeps_sound
                  [OpenDashboard calm 42; Redeem calm 7 "UD-012345"] fresh_world)).
  reflexivity.
Defined.

(** ** Counts and ledger together *)

Lemma redeemed_in_mark u c uid info en :
  find (fun x => String.eqb (code x) c) info = Some en -> used_by en = None ->
  redeemed_in u (mark_used c uid info) =
  redeemed_in u info + (if String.eqb uid u then 1 else 0).
Proof.
  unfold redeemed_in.
  induction info as [|a l IH]; cbn [find mark_used]; [discriminate|].
  destruct (String.eqb (code a) c) eqn:E; intros H Hu.
  - inversion H; subst a.
    assert (H1 : used_by_user u (mk_entry (code en) (Some uid)) = String.eqb uid u)
      by reflexivity.
    assert (H2 : used_by_user u en = false) by (unfold used_by_user; now rewrite Hu).
    cbn [filter]. rewrite H1, H2.
    destruct (String.eqb uid u); cbn [List.length]; lia.
  - specialize (IH H Hu). cbn [filter].
    destruct (used_by_user u a); cbn [List.length]; lia.
Qed.

Lemma redemptions_by_dict_set u o v info inv :
  dict_get o inv = Some info ->
  redemptions_by u (dict_set o v inv) =
  redemptions_by u inv - redeemed_in u info + redeemed_in u v.
Proof.
  induction inv as [|[k l] inv IH]; cbn [dict_get dict_set]; [discriminate|].
  destruct (String.eqb k o) eqn:E; intros H; cbn [redemptions_by].
  - inversion H; subst. lia.
  - rewrite (IH H). lia.
Qed.

Lemma redemptions_by_app u a b :
  redemptions_by u (a ++ b) = redemptions_by u a + redemptions_by u b.
Proof.
  induction a as [|[k l] a IH]; cbn [app redemptions_by]; [lia|].
  rewrite IH. lia.
Qed.

Lemma dict_get_default_new_stats u uid st :
  dict_get_default u 0 (new_stats uid st) =
  dict_get_default u 0 st + (if String.eqb uid u then 1 else 0).
Proof.
  unfold new_stats, new_count, dict_get_default.
  destruct (String.eqb_spec uid u) as [->|Hne].
  - now rewrite dict_get_set_same.
  - rewrite dict_get_set_other by congruence. lia.
Qed.

Lemma commit_keeps_agreement c uid o info inv st :
  dict_wf inv -> decide c uid inv = Proceed o -> dict_get o inv = Some info ->
  counts_agree inv st ->
  counts_agree (new_invites c uid o info inv) (new_stats uid st).
Proof.
  intros Hwf Hdec Hget Hag u.
  destruct (proceed_wf _ _ _ _ _ Hwf Hdec Hget) as (en & Hf & Hu & _).
  rewrite dict_get_default_new_stats. unfold new_invites.
  rewrite (redemptions_by_dict_set u o _ info inv Hget).
  rewrite (redeemed_in_mark u c uid info en Hf Hu), Hag. lia.
Qed.

Lemma on_submit_keeps_agreement e u c w :
  atomic_saves e ->
  dict_wf (view (invites_file w)) ->
  counts_agree (view (invites_file w)) (view (stats_file w)) ->
  counts_agree (view (invites_file (snd (on_submit e u c w))))
               (view (stats_file (snd (on_submit e u c w)))).
Proof.
  intros Hat Hwf Hag. unfold atomic_saves in Hat.
  outcomes e u c w; auto.
  all: try solve [exfalso; destruct Hat as [?|[? ?]]; congruence].
  all: cbn [view]; now apply commit_keeps_agreement.
Qed.

Lemma open_dashboard_button_keeps_agreement e u w :
  atomic_saves e ->
  counts_agree (view (invites_file w)) (view (stats_file w)) ->
  counts_agree (view (invites_file (snd (open_dashboard_button e u w))))
               (view (stats_file (snd (open_dashboard_button e u w)))).
Proof.
  intros Hat Hag. unfold atomic_saves in Hat.
  dashboard e u w; auto.
  all: try solve [exfalso; destruct Hat as [?|[? ?]]; congruence].
  subst d'. cbn [view]. intros k. rewrite redemptions_by_app, Hag. cbn. lia.
Qed.

(** X18: as long as no write fails once writing has begun, the stats
    table counts what the ledger records: in every state reached from
    two missing files by redemptions and dashboard requests, the count
    on file for a user is the number of entries naming that user as
    redeemer. *)
Theorem run_operations_counts_agree (ops : list operation) (w : world) :
  all_atomic ops ->
  (dict_wf (view (invites_file w)) ->
   counts_agree (view (invites_file w)) (view (stats_file w)) ->
   counts_agree (view (invites_file (run_operations ops w)))
                (view (stats_file (run_operations ops w)))) /\
  (invites_file w = Absent -> stats_file w = Absent ->
   counts_agree (view (invites_file (run_operations ops w)))
                (view (stats_file (run_operations ops w)))).
Proof.
  intros Hops.
  assert (H : forall w0,
    dict_wf (view (invites_file w0)) ->
    counts_agree (view (invites_file w0)) (view (stats_file w0)) ->
    counts_agree (view (invites_file (run_operations ops w0)))
                 (view (stats_file (run_operations ops w0)))).
  { induction Hops as [|op ops Hop Hops IH]; intros w0 Hwf Hag; simpl; auto.
    destruct op as [e u c | e u]; simpl in *; apply IH.
    - now apply on_submit_keeps_wf.
    - now apply on_submit_keeps_agreement.
    - now apply open_dashboard_button_keeps_wf.
    - now apply open_dashboard_button_keeps_agreement. }
  split; [apply H|]. intros Hi Hs. apply H; rewrite Hi, ?Hs; simpl.
  - constructor.
  - intros u. reflexivity.
Qed.

Lemma run_operations_counts_agree_witness :
  counts_agree
    (view (invites_file
             (run_operations [OpenDashboard calm 42; Redeem calm 7 "UD-012345";
                              Redeem calm 7 "UD-678901"] fresh_world)))
    (view (stats_file
             (run_operations [OpenDashboard calm 42; Redeem calm 7 "UD-012345";
                              Redeem calm 7 "UD-678901"] fresh_world))).
Proof.
  apply (proj2 (run_operations_counts_agree
                  [OpenDashboard calm 42; Redeem calm 7 "UD-012345";
                   Redeem calm 7 "UD-678901"] fresh_world
                  ltac:(repeat constructor; right; split; reflexivity)));
    reflexivity.
Defined.

(** ** From issuance to redemption *)

(** Different user ids never share a key. *)
Lemma str_inj (a b : Z) : str a = str b -> a = b.
Proof.
  unfold str. intros H.
  assert (Hnn : forall z, Z.to_int z <> Decimal.Pos Decimal.Nil /\
                          Z.to_int z <> Decimal.Neg Decimal.Nil).
  { intros [|p|p]; simpl; split; try discriminate; intros Hp; inversion Hp as [Hq];
      now apply DecimalPos.Unsigned.to_uint_nonnil in Hq. }
  apply (f_equal NilZero.int_of_string) in H.
  rewrite !NilZero.isi in H by apply Hnn.
  inversion H as [Hz]. now apply DecimalZ.to_int_inj.
Qed.

Lemma find_entries_none c inv :
  ~ In c (all_codes inv) ->
  find (fun oe : string * code_entry => String.eqb (code (snd oe)) c) (entries inv) = None.
Proof.
  intros Hn.
  destruct (find _ (entries inv)) as [[o en]|] eqn:E; auto.
  apply find_some in E. destruct E as [Hin Hc]. simpl in Hc.
  apply String.eqb_eq in Hc. exfalso. apply Hn.
  unfold all_codes. apply in_map_iff. exists (o, en). auto.
Qed.

(** A code of a new batch that the ledger did not hold is looked up in
    the batch, unused. *)
Lemma lookup_code_new_batch c a e p inv :
  ~ In c (all_codes inv) -> In c (batch_codes e p) ->
  lookup_code c (inv ++ [(a, batch e p)]) = Some (a, mk_entry c None) /\
  exists en, find (fun x => String.eqb (code x) c) (batch e p) = Some en /\
             used_by en = None.
Proof.
  intros Hn Hin.
  assert (Hf : find (fun x => String.eqb (code x) c) (batch e p) = Some (mk_entry c None)).
  { unfold batch, batch_codes in *. cbn [map find code In] in *.
    destruct (String.eqb_spec (code_at e p) c) as [->|H1]; [reflexivity|].
    destruct (String.eqb_spec (code_at e (6 + p)) c) as [->|H2]; [reflexivity|].
    destruct (String.eqb_spec (code_at e (12 + p)) c) as [->|H3]; [reflexivity|].
    intuition congruence. }
  split; [|eexists; split; [exact Hf|reflexivity]].
  assert (He : entries (inv ++ [(a, batch e p)]) =
               entries inv ++ map (pair a) (batch e p)).
  { unfold entries. rewrite flat_map_app. cbn [flat_map fst snd].
    now rewrite app_nil_r. }
  unfold lookup_code. rewrite He, find_app, (find_entries_none c inv Hn).
  rewrite find_map_pair, Hf. reflexivity.
Qed.

Lemma in_mark_used_new c uid info en :
  find (fun x => String.eqb (code x) c) info = Some en ->
  In (mk_entry c (Some uid)) (mark_used c uid info).
Proof.
  intros Hf. destruct (mark_used_at c uid info en Hf) as (i & _ & _ & ->).
  apply in_or_app. right. now left.
Qed.

(** The state a redemption without obstacles leaves. *)
Lemma on_submit_commits e u c w o :
  defer_raises e = false ->
  readable e INVITES w = true -> readable e STATS w = true ->
  decide c (str u) (view (invites_file w)) = Proceed o ->
  unhindered e u c (new_count (str u) (view (stats_file w))) ->
  redeemed c (new_count (str u) (view (stats_file w))) w (snd (on_submit e u c w)) /\
  exists info,
    dict_get o (view (invites_file w)) = Some info /\
    invites_file (snd (on_submit e u c w)) =
      Stored (new_invites c (str u) o info (view (invites_file w))).
Proof.
  intros Hd Hi Hs Hdec (HG & Hsi & Hss & Hsend).
  destruct HG as [G0 HG0]. unfold redeemed.
  outcomes e u c w; try congruence.
  all: try solve [exfalso;
    repeat match goal with
           | Hg : grant_ok _ _ _ _ |- _ => inversion Hg; clear Hg
           end; congruence].
  split.
  - rewrite last_cons_app_app. reflexivity.
  - exists info. split; congruence.
Qed.

(** X19: a code of a freshly issued batch that the ledger did not hold
    before can be redeemed at once by any other user, and ends recorded,
    under the owner, as used by that user; the owner trying it is told
    that it is their own code and nothing is written.  Users are told
    apart by their ids: two different ids never share a key. *)
Theorem issue_then_redeem (e1 e2 : env) (owner user_id : Z) (c : string) (w : world) :
  let w1 := snd (open_dashboard_button e1 owner w) in
  let w2 := snd (on_submit e2 user_id c w1) in
  eligible e1 owner -> readable e1 INVITES w = true ->
  dict_get (str owner) (view (invites_file w)) = None ->
  save_fault e1 INVITES_FILE = io_ok ->
  In c (batch_codes e1 (rand_pos w)) -> ~ In c (all_codes (view (invites_file w))) ->
  defer_raises e2 = false -> load_raises e2 INVITES_FILE = false ->
  readable e2 STATS w = true ->
  (user_id = owner ->
   hd_error (replies (new_events w1 w2)) = Some MsgOwnCode /\ files_unchanged w1 w2) /\
  (user_id <> owner ->
   let n := new_count (str user_id) (view (stats_file w)) in
   unhindered e2 user_id c n ->
   redeemed c n w1 w2 /\
   exists l,
     dict_get (str owner) (view (invites_file w2)) = Some l /\
     In (mk_entry c (Some (str user_id))) l).
Proof.
  cbv zeta. intros Hel Hr Hnone Hsave Hin Hnew Hd2 Hl2 Hs2.
  pose proof (open_dashboard_button_generates e1 owner w Hel Hr Hnone Hsave) as Hw1.
  pose proof (open_dashboard_button_run e1 owner w) as Hrun.
  set (w1 := snd (open_dashboard_button e1 owner w)) in *.
  assert (Hst : stats_file w1 = stats_file w).
  { destruct Hrun; auto. }
  assert (Hri : readable e2 INVITES w1 = true).
  { unfold readable. cbn [h_get INVITES h_name]. now rewrite Hw1, Hl2. }
  assert (Hrs : readable e2 STATS w1 = true).
  { unfold readable in *. cbn [h_get STATS h_name] in *. now rewrite Hst. }
  destruct (lookup_code_new_batch c (str owner) e1 (rand_pos w) _ Hnew Hin)
    as (Hlook & en & Hf & Hu).
  split.
  - intros ->. apply reject_reply_first; auto.
    rewrite Hw1. cbn [view]. unfold decide. rewrite Hlook. simpl.
    now rewrite String.eqb_refl.
  - intros Hne Hun.
    assert (Hdec : decide c (str user_id) (view (invites_file w1)) = Proceed (str owner)).
    { rewrite Hw1. cbn [view]. unfold decide. rewrite Hlook. simpl.
      destruct (String.eqb_spec (str user_id) (str owner)) as [Heq|]; [|reflexivity].
      apply str_inj in Heq. contradiction. }
    rewrite <- Hst in Hun |- *.
    destruct (on_submit_commits e2 user_id c w1 (str owner) Hd2 Hri Hrs Hdec Hun)
      as (Hred & info & Hget & Hw2).
    split; [exact Hred|].
    rewrite Hw2. cbn [view]. unfold new_invites. rewrite dict_get_set_same.
    eexists. split; [reflexivity|].
    rewrite Hw1 in Hget. cbn [view] in Hget.
    rewrite (dict_get_app_new _ (batch e1 (rand_pos w)) _ Hnone) in Hget.
    inversion Hget; subst info. eapply in_mark_used_new; eauto.
Qed.

Lemma issue_then_redeem_witness :
  redeemed "UD-012345" 1
    (snd (open_dashboard_button calm 42 fresh_world))
    (snd (on_submit calm 7 "UD-012345"
            (snd (open_dashboard_button calm 42 fresh_world)))).
Proof.
  destruct (issue_then_redeem calm calm 42 7 "UD-012345" fresh_world) as [_ H].
  - exists [INVITE_GENERATOR_ROLE_ID]. split; reflexivity.
  - reflexivity.
  - reflexivity.
  - reflexivity.
  - vm_compute. now left.
  - intros [].
  - reflexivity.
  - reflexivity.
  - reflexivity.
  - apply H.
    + discriminate.
    + repeat split; try reflexivity.
      exists [EvGrant FIRST_INVITE_ROLE_ID].
      apply (G_granted calm 7 1 FIRST_INVITE_ROLE_ID [INVITE_GENERATOR_ROLE_ID]);
        reflexivity.
Defined.

(** ** The two loops of a redemption *)

Lemma lookup_code_some_in c inv o en :
  lookup_code c inv = Some (o, en) ->
  code en = c /\ exists l, In (o, l) inv /\ In en l.
Proof.
  unfold lookup_code. intros H. apply find_some in H. destruct H as [Hin Hc].
  simpl in Hc. apply String.eqb_eq in Hc. split; [exact Hc|].
  unfold entries in Hin. apply in_flat_map in Hin.
  destruct Hin as [[o' l] [Hd Hl]]. simpl in Hl.
  apply in_map_iff in Hl. destruct Hl as [en' [Heq Hen]]. inversion Heq; subst.
  eauto.
Qed.

Lemma lookup_code_none_codes c inv :
  lookup_code c inv = None <-> ~ In c (all_codes inv).
Proof.
  split.
  - intros H Hin. unfold all_codes in Hin. apply in_map_iff in Hin.
    destruct Hin as [[o en] [Hc Hin]]. unfold lookup_code in H.
    apply (find_none _ _ H) in Hin. simpl in *. rewrite Hc, String.eqb_refl in Hin.
    discriminate.
  - apply find_entries_none.
Qed.

(** X20: the lookup loop of [on_submit]: [found_code] is set exactly
    when some entry of the ledger carries the entered code; [code_used]
    and [owner_id] are never both set; [owner_id], when set, is an owner
    holding an unused entry with that code; and a code found and not
    used always has its owner recorded. *)
Theorem scan_invites_flags (c : string) (inv : invites) :
  let s := scan_invites c inv scan_init in
  (found_code s = true <-> In c (all_codes inv)) /\
  (code_used s = true -> found_code s = true /\ owner_id s = None) /\
  (forall o, owner_id s = Some o ->
     found_code s = true /\ code_used s = false /\
     exists l en, In (o, l) inv /\ In en l /\ code en = c /\ used_by en = None) /\
  (found_code s = true -> code_used s = false -> exists o, owner_id s = Some o).
Proof.
  cbv zeta. rewrite scan_lookup.
  pose proof (lookup_code_none_codes c inv) as Hnone.
  destruct (lookup_code c inv) as [[o en]|] eqn:E.
  - destruct (lookup_code_some_in _ _ _ _ E) as (Hc & l & Hl & Hen).
    assert (Hin : In c (all_codes inv)).
    { destruct (in_dec string_dec c (all_codes inv)) as [Hy|Hn]; auto.
      apply Hnone in Hn. discriminate. }
    destruct (used_by en) eqn:Hu; cbn [found_code code_used owner_id].
    + split; [tauto|]. split; [auto|]. split; [discriminate|discriminate].
    + split; [tauto|]. split; [discriminate|]. split.
      * intros o' Ho. inversion Ho; subst. split; [reflexivity|].
        split; [reflexivity|]. exists l, en. auto.
      * intros _ _. eauto.
  - cbn [found_code code_used owner_id]. split.
    + split; [discriminate|]. intros Hin. exfalso. now apply (proj1 Hnone).
    + split; [discriminate|]. split; discriminate.
Qed.

Lemma scan_invites_flags_witness :
  found_code (scan_invites "UD-012345" ledger_A scan_init) = true.
Proof.
  apply (proj1 (scan_invites_flags "UD-012345" ledger_A)).
  vm_compute. left. reflexivity.
Defined.

Lemma mark_used_no_code c uid l : has_code c l = false -> mark_used c uid l = l.
Proof.
  unfold has_code. induction l as [|a l IH]; simpl; auto.
  destruct (String.eqb (code a) c); simpl; [discriminate|].
  intros H. now rewrite IH.
Qed.

Lemma mark_used_overwrites c u1 u2 l :
  mark_used c u2 (mark_used c u1 l) = mark_used c u2 l.
Proof.
  induction l as [|a l IH]; simpl; auto.
  destruct (String.eqb (code a) c) eqn:E; simpl; rewrite E; [reflexivity|].
  now rewrite IH.
Qed.

(** X21: the marking loop of [on_submit] on its own: it keeps the
    length of the list and every code, leaves a list without the code as
    it is, and does not look at [used_by]: run again for another user it
    overwrites the redeemer it recorded.  That a used code is never
    redeemed again rests on the lookup alone. *)
Theorem mark_used_loop (c u1 u2 : string) (l : invite_info) :
  List.length (mark_used c u1 l) = List.length l /\
  map code (mark_used c u1 l) = map code l /\
  (has_code c l = false -> mark_used c u1 l = l) /\
  mark_used c u2 (mark_used c u1 l) = mark_used c u2 l.
Proof.
  split; [apply mark_used_length|]. split; [|split].
  - induction l as [|a l IH]; simpl; auto.
    destruct (String.eqb (code a) c); simpl; congruence.
  - apply mark_used_no_code.
  - apply mark_used_overwrites.
Qed.

Lemma mark_used_loop_witness :
  mark_used "UD-0" "7" [mk_entry "UD-1" None] = [mk_entry "UD-1" None].
Proof.
  apply (proj1 (proj2 (proj2 (mark_used_loop "UD-0" "7" "8" [mk_entry "UD-1" None])))).
  reflexivity.
Defined.

(** ** Counts across attempts *)

(** X22: an attempt by one user never changes the count on file for
    another, whatever its outcome, as long as the stats write does not
    break off half-way. *)
Theorem on_submit_other_users_count (e : env) (user_id other : Z) (c : string)
    (w : world) :
  other <> user_id ->
  save_fault e STATS_FILE <> io_write_fails ->
  dict_get (str other) (view (stats_file (snd (on_submit e user_id c w)))) =
  dict_get (str other) (view (stats_file w)).
Proof.
  intros Hne Hsave.
  assert (Hk : str other <> str user_id) by (intros H; now apply str_inj in H).
  outcomes e user_id c w; auto; try congruence.
  all: cbn [view]; unfold new_stats; now rewrite dict_get_set_other.
Qed.

Lemma on_submit_other_users_count_witness :
  dict_get (str 8) (view (stats_file (snd (on_submit calm 7 "UD-012345" world_A)))) =
  dict_get (str 8) (view (stats_file world_A)).
Proof.
  apply (on_submit_other_users_count calm 7 8 "UD-012345" world_A); discriminate.
Defined.

(** X23: each further success of a user adds exactly one: the count a
    second success reports is one above the count the first reported,
    whatever other users' attempts came in between, as long as no stats
    write broke off half-way. *)
Theorem redeemed_again_counts_one_more (e1 e2 : env) (user_id : Z) (c1 c2 : string)
    (n1 n2 : Z) (between : list attempt) (w : world) :
  let w1 := snd (on_submit e1 user_id c1 w) in
  let w2 := run_attempts between w1 in
  let w3 := snd (on_submit e2 user_id c2 w2) in
  Forall (fun a => a_user a <> user_id /\
                   save_fault (a_env a) STATS_FILE <> io_write_fails) between ->
  redeemed c1 n1 w w1 -> redeemed c2 n2 w2 w3 ->
  n2 = n1 + 1.
Proof.
  cbv zeta. intros Hbetween Hr1 Hr2.
  destruct (redeemed_inv _ _ _ _ _ Hr1) as (_ & _ & _ & _ & o & info & G & _ & _ & _ & _ & _ & _ & Hw1).
  destruct (redeemed_inv _ _ _ _ _ Hr2) as (Hn2 & _).
  assert (H1 : dict_get (str user_id)
                 (view (stats_file (snd (on_submit e1 user_id c1 w)))) = Some n1).
  { rewrite Hw1, stats_file_step. cbn [view]. unfold new_stats.
    rewrite dict_get_set_same.
    now destruct (redeemed_inv _ _ _ _ _ Hr1) as (-> & _). }
  assert (H2 : forall l w0,
    Forall (fun a => a_user a <> user_id /\
                     save_fault (a_env a) STATS_FILE <> io_write_fails) l ->
    dict_get (str user_id) (view (stats_file (run_attempts l w0))) =
    dict_get (str user_id) (view (stats_file w0))).
  { intros l. induction l as [|a l IH]; intros w0 Hall; simpl; auto.
    inversion Hall as [|? ? [Ha Hs] Hrest]; subst.
    rewrite (IH _ Hrest).
    assert (Hk : str user_id <> str (a_user a))
      by (intros H; apply str_inj in H; congruence).
    outcomes (a_env a) (a_user a) (a_code a) w0; auto; try congruence.
    all: cbn [view]; unfold new_stats; now rewrite dict_get_set_other. }
  rewrite Hn2. unfold new_count, dict_get_default.
  now rewrite (H2 between _ Hbetween), H1.
Qed.

Lemma redeemed_again_counts_one_more_witness :
  2 = 1 + 1.
Proof.
  apply (redeemed_again_counts_one_more calm calm 7 "UD-012345" "UD-678901" 1 2
           [mk_attempt calm 8 "UD-234567"] world_A).
  - repeat constructor; discriminate.
  - reflexivity.
  - reflexivity.
Defined.

(** ** The module global [invites_data] *)

Lemma try_outcome_cache e user_id c w d r w1 :
  try_outcome e user_id c w r w1 ->
  try_outcome e user_id c (with_cache d w) r (with_cache d w1).
Proof.
  intros H. destruct w as [fi fs idata q rp tr].
  inversion H; subst; cbn [with_cache step_world].
  - eapply (T_load_invites e user_id c (mk_world fi fs d q rp tr)); eassumption.
  - eapply (T_load_stats e user_id c (mk_world fi fs d q rp tr)); eassumption.
  - eapply (T_reject e user_id c (mk_world fi fs d q rp tr)); eassumption.
  - eapply (T_reject_unsent e user_id c (mk_world fi fs d q rp tr)); eassumption.
  - eapply (T_no_member e user_id c (mk_world fi fs d q rp tr)); eassumption.
  - eapply (T_grant_raises e user_id c (mk_world fi fs d q rp tr)); eassumption.
  - eapply (T_save_invites_open e user_id c (mk_world fi fs d q rp tr)); eassumption.
  - eapply (T_save_invites_write e user_id c (mk_world fi fs d q rp tr)); eassumption.
  - eapply (T_save_stats_open e user_id c (mk_world fi fs d q rp tr)); eassumption.
  - eapply (T_save_stats_write e user_id c (mk_world fi fs d q rp tr)); eassumption.
  - eapply (T_commit e user_id c (mk_world fi fs d q rp tr)); eassumption.
  - eapply (T_commit_unsent e user_id c (mk_world fi fs d q rp tr)); eassumption.
Qed.

Lemma try_outcome_functional e user_id c w r1 w1 r2 w2 :
  try_outcome e user_id c w r1 w1 -> try_outcome e user_id c w r2 w2 ->
  r1 = r2 /\ w1 = w2.
Proof.
  intros H1 H2.
  inversion H1; subst; inversion H2; subst;
    repeat match goal with
           | H : grant_ok _ _ _ _ |- _ => inversion H; subst; clear H
           end;
    try congruence; split; congruence.
Qed.

Lemma deferred_cache d w : deferred (with_cache d w) = with_cache d (deferred w).
Proof. now destruct w. Qed.

Lemma handled_cache d w : handled (with_cache d w) = with_cache d (handled w).
Proof. now destruct w. Qed.

Lemma on_submit_cache e user_id c d w :
  snd (on_submit e user_id c (with_cache d w)) =
  with_cache d (snd (on_submit e user_id c w)).
Proof.
  pose proof (on_submit_run e user_id c (with_cache d w)) as H1.
  pose proof (on_submit_run e user_id c w) as H2.
  remember (snd (on_submit e user_id c (with_cache d w))) as a eqn:Ea.
  remember (snd (on_submit e user_id c w)) as b eqn:Eb. clear Ea Eb.
  destruct H1 as [D1 | a1 D1 T1 | a1 D1 T1 | a1 D1 T1];
    destruct H2 as [D2 | b1 D2 T2 | b1 D2 T2 | b1 D2 T2]; try congruence.
  1: apply deferred_cache.
  all: rewrite deferred_cache in T1;
    destruct (try_outcome_functional _ _ _ _ _ _ _ _ T1
                (try_outcome_cache _ _ _ _ d _ _ T2)) as [Hr ->];
    try discriminate; auto using handled_cache.
Qed.

(** X24: a redemption works from the files alone: it never writes the
    module global [invites_data], and whatever that global holds has no
    influence on the files, the counter or the log of the attempt. *)
Theorem on_submit_ignores_cache (e : env) (user_id : Z) (c : string)
    (d : invites) (w : world) :
  invites_data (snd (on_submit e user_id c w)) = invites_data w /\
  outside_cache (snd (on_submit e user_id c (with_cache d w))) =
  outside_cache (snd (on_submit e user_id c w)).
Proof.
  split.
  - pose proof (on_submit_cache e user_id c (invites_data w) w) as H.
    assert (Hw : with_cache (invites_data w) w = w) by now destruct w.
    rewrite Hw in H. rewrite H.
    now destruct (snd (on_submit e user_id c w)).
  - rewrite on_submit_cache.
    now destruct (snd (on_submit e user_id c w)).
Qed.

(** X25: issuance reloads before it decides: the files, the counter,
    the random position and the log it leaves do not depend on what the
    module global [invites_data] held; and for a member with the
    generator role and a readable invites file the global it leaves does
    not either.  After a write that fails the global holds the new batch
    although the file does not. *)
Theorem open_dashboard_button_reloads (e : env) (user_id : Z) (d : invites)
    (w : world) :
  outside_cache (snd (open_dashboard_button e user_id (with_cache d w))) =
  outside_cache (snd (open_dashboard_button e user_id w)) /\
  (forall roles,
     get_member e user_id = Some roles -> has_generator_role roles = true ->
     readable e INVITES w = true ->
     snd (open_dashboard_button e user_id (with_cache d w)) =
     snd (open_dashboard_button e user_id w) /\
     (dict_get (str user_id) (view (invites_file w)) = None ->
      invites_data (snd (open_dashboard_button e user_id w)) =
      view (invites_file w) ++ [(str user_id, batch e (rand_pos w))])).
Proof.
  destruct w as [fi fs idata q rp tr]. cbn [with_cache].
  pose proof (open_dashboard_button_run e user_id (mk_world fi fs d q rp tr)) as H1.
  pose proof (open_dashboard_button_run e user_id (mk_world fi fs idata q rp tr)) as H2.
  remember (snd (open_dashboard_button e user_id (mk_world fi fs d q rp tr))) as a eqn:Ea.
  remember (snd (open_dashboard_button e user_id (mk_world fi fs idata q rp tr))) as b eqn:Eb.
  clear Ea Eb.
  assert (Hread : readable e INVITES (mk_world fi fs d q rp tr) =
                  readable e INVITES (mk_world fi fs idata q rp tr)) by reflexivity.
  destruct H1; destruct H2;
    cbn [invites_file stats_file invites_data queue_position rand_pos trace] in *;
    try congruence.
  all: split; [reflexivity|]; intros roles' Hm' Hr' Hread'.
  all: try congruence.
  all: split; [reflexivity|]; intros Hget'; try congruence.
  all: reflexivity.
Qed.

Lemma open_dashboard_button_reloads_witness :
  invites_data (snd (open_dashboard_button calm 7 fresh_world)) =
  view (invites_file fresh_world) ++ [(str 7, batch calm (rand_pos fresh_world))].
Proof.
  destruct (open_dashboard_button_reloads calm 7 [] fresh_world) as [_ H].
  destruct (H [INVITE_GENERATOR_ROLE_ID]) as [_ H']; [reflexivity..|].
  apply H'. reflexivity.
Defined.
